(** * doug_clone: the web client's chat and ingestion views, the API layer
    and the ingestion contract, as a shallow embedding.

  Sources embedded here:
  - the ChatInterface component, second document of
    [src/frontend/tailwind.config.js]                    (module [Chat])
  - the DataIngestion component, [src/unnamed/part_002]  (module [Ingestion])
  - [src/frontend/src/services/api.ts]                   (module [Api])
  - the BigQuery table schema, [src/unnamed/part_001]
                                        (record [Server.EmbeddingChunk])

  A React component is modelled as a record holding its [useState] cells
  together with the part of the browser it talks to (registered timers,
  the request in flight, the requests sent, the toasts shown).  Every
  handler is a function on that record; an [await] splits a handler into
  the part run at the call and the continuations run when the promise
  settles.  Timer and promise events may arrive in any order: nothing
  below depends on real time. *)

From stdpp Require Import base list strings pretty.
From Stdlib Require Import ZArith NArith QArith.QArith_base.

Local Open Scope Z_scope.
Local Open Scope nat_scope.
Local Open Scope list_scope.

(** ** JavaScript strings *)

Module Js.

(** A JavaScript string is a sequence of UTF-16 code units. *)
Definition JsString := list N.

(** A string literal of the source (all of them are ASCII). *)
Definition lit (s : string) : JsString :=
  Ascii.N_of_ascii <$> String.list_ascii_of_string s.

(** [Number.prototype.toString()] on an integer: its decimal rendering. *)
Definition toString (n : Z) : JsString := lit (pretty n).

(** ECMAScript [WhiteSpace] and [LineTerminator] code units, the ones
    [String.prototype.trim] strips. *)
Definition is_ws (c : N) : bool :=
  ((9 <=? c) && (c <=? 13) || (c =? 32) || (c =? 160) || (c =? 5760)
   || (8192 <=? c) && (c <=? 8202) || (c =? 8232) || (c =? 8233)
   || (c =? 8239) || (c =? 8287) || (c =? 12288) || (c =? 65279))%N.

Fixpoint trimStart (s : JsString) : JsString :=
  match s with
  | c :: s' => if is_ws c then trimStart s' else s
  | [] => []
  end.

Definition trimEnd (s : JsString) : JsString :=
  reverse (trimStart (reverse s)).

Definition trim (s : JsString) : JsString := trimEnd (trimStart s).

(** [s.slice(a, b)] for non-negative [a] and [b]. *)
Definition slice (s : JsString) (a b : nat) : JsString :=
  take (b - a) (drop a s).

(** Truthiness of a string: only [''] is falsy. *)
Definition truthy (s : JsString) : bool :=
  match s with [] => false | _ :: _ => true end.

(** [a ?? b] where [None] stands for [undefined]/[null]. *)
Definition nullish {A} (a : option A) (b : A) : A :=
  match a with Some x => x | None => b end.

(** [a || b] on a possibly missing string. *)
Definition or_else (a : option JsString) (b : JsString) : JsString :=
  match a with
  | Some x => if truthy x then x else b
  | None => b
  end.

(** Empty or made of white space only. *)
Definition blank (s : JsString) : bool := forallb is_ws s.

(** [a === b] on strings. *)
Definition eqb (a b : JsString) : bool := bool_decide (a = b).

(** A notification of react-hot-toast: [toast.error(m)] or
    [toast.success(m)]. *)
Inductive Toast :=
| ToastError (m : JsString)
| ToastSuccess (m : JsString).

End Js.

Import Js.

(** ** [services/api.ts] *)

Module Api.

(** One entry of the [messages] array of a chat request. *)
Record Turn := { role : JsString; content : JsString }.

(** Body of [POST /api/chat].  A field that the object literal leaves
    out, or whose value is [undefined], is [None] (JSON serialisation
    drops both).  The number literal [0.7] is the rational 7/10. *)
Record ChatBody := {
  message : option JsString;
  messages : option (list Turn);
  persona_id : option JsString;
  use_context : bool;
  temperature : Q;
  max_tokens : Z
}.

(** Body of [POST /api/ingest]; [M] is the opaque metadata. *)
Record IngestBody (M : Type) := {
  text : JsString;
  ingest_persona_id : option JsString;
  metadata : option M
}.
Arguments text {M}.
Arguments ingest_persona_id {M}.
Arguments metadata {M}.

(** [api.chat({ message, persona? })] *)
Definition chat (data_message : JsString) (data_persona : option JsString)
  : ChatBody :=
  {| message := Some data_message;
     messages := None;
     persona_id := data_persona;
     use_context := true;
     temperature := Qmake 7 10;
     max_tokens := 1000 |}.

(** [api.ingestData({ text, persona? })] *)
Definition ingestData {M} (data_text : JsString)
    (data_persona : option JsString) : IngestBody M :=
  {| text := data_text;
     ingest_persona_id := data_persona;
     metadata := None |}.

(** [chatAPI.sendMessage(messages, personaId = 'default')]: the default
    applies when the argument is omitted ([None]). *)
Definition sendMessage (msgs : list Turn) (personaId : option JsString)
  : ChatBody :=
  {| message := None;
     messages := Some msgs;
     persona_id := Some (nullish personaId (lit "default"));
     use_context := true;
     temperature := Qmake 7 10;
     max_tokens := 1000 |}.

(** [ingestionAPI.ingestText(text, personaId = 'default', metadata?)] *)
Definition ingestText {M} (t : JsString) (personaId : option JsString)
    (meta : option M) : IngestBody M :=
  {| text := t;
     ingest_persona_id := Some (nullish personaId (lit "default"));
     metadata := meta |}.

(** *** The persona endpoints and the URLs *)

Inductive Method := GET | POST | DELETE.

(** A call of [apiClient.get], [apiClient.post] or [apiClient.delete] on
    the persona endpoints: the method, the URL, and the [persona_id] of
    the body if there is a body. *)
Record PersonaCall := {
  method : Method;
  url : JsString;
  body_persona_id : option JsString
}.

Definition chat_url : JsString := lit "/api/chat".
Definition ingest_url : JsString := lit "/api/ingest".
Definition personas_url : JsString := lit "/api/personas".

(** [api.getPersonas()] *)
Definition getPersonas : PersonaCall :=
  {| method := GET; url := personas_url; body_persona_id := None |}.

(** [api.createPersona({ name })] *)
Definition createPersona (data_name : JsString) : PersonaCall :=
  {| method := POST; url := personas_url;
     body_persona_id := Some data_name |}.

(** [api.deletePersona(personaId)]: the URL is the template literal
    [`/api/personas/${personaId}`]. *)
Definition deletePersona (personaId : JsString) : PersonaCall :=
  {| method := DELETE; url := lit "/api/personas/" ++ personaId;
     body_persona_id := None |}.

(** [personaAPI.listPersonas()] *)
Definition listPersonas : PersonaCall :=
  {| method := GET; url := personas_url; body_persona_id := None |}.

(** [personaAPI.deletePersona(personaId)] *)
Definition legacy_deletePersona (personaId : JsString) : PersonaCall :=
  {| method := DELETE; url := lit "/api/personas/" ++ personaId;
     body_persona_id := None |}.

End Api.

(** ** [components/ChatInterface.tsx] *)

Module Chat.

Inductive Role := user | assistant.

#[global] Instance Role_eq_dec : EqDecision Role.
Proof. solve_decision. Defined.

Definition role_str (r : Role) : JsString :=
  match r with user => lit "user" | assistant => lit "assistant" end.

Record Message := {
  id : JsString;
  role : Role;
  content : JsString;
  timestamp : Z
}.

(** The closure of one [typewriterEffect] call: the text, the counter
    [i], and whether [clearInterval] has been called on its timer. *)
Record Interval := {
  iv_text : JsString;
  iv_i : nat;
  iv_cleared : bool
}.

(** The closure of the [setTimeout] of a successful turn. *)
Record Timeout := {
  to_id : JsString;
  to_text : JsString;
  to_delay : Z;
  to_fired : bool
}.

(** What the response body may carry ([response.message],
    [response.response]). *)
Record Response := {
  r_message : option JsString;
  r_response : option JsString
}.

Record State := {
  (* useState cells *)
  message : JsString;
  messages : list Message;
  isLoading : bool;
  streamingContent : JsString;
  (* browser side *)
  intervals : list Interval;
  timeouts : list Timeout;
  pending : bool;
  sent : list Api.ChatBody;
  toasts : list Toast
}.

Definition init : State :=
  {| message := []; messages := []; isLoading := false;
     streamingContent := []; intervals := []; timeouts := [];
     pending := false; sent := []; toasts := [] |}.

Definition setMessage (v : JsString) (s : State) : State :=
  {| message := v; messages := messages s; isLoading := isLoading s;
     streamingContent := streamingContent s; intervals := intervals s;
     timeouts := timeouts s; pending := pending s; sent := sent s;
     toasts := toasts s |}.

Definition setMessages (f : list Message -> list Message) (s : State)
  : State :=
  {| message := message s; messages := f (messages s);
     isLoading := isLoading s; streamingContent := streamingContent s;
     intervals := intervals s; timeouts := timeouts s;
     pending := pending s; sent := sent s; toasts := toasts s |}.

Definition setIsLoading (b : bool) (s : State) : State :=
  {| message := message s; messages := messages s; isLoading := b;
     streamingContent := streamingContent s; intervals := intervals s;
     timeouts := timeouts s; pending := pending s; sent := sent s;
     toasts := toasts s |}.

Definition setStreamingContent (v : JsString) (s : State) : State :=
  {| message := message s; messages := messages s;
     isLoading := isLoading s; streamingContent := v;
     intervals := intervals s; timeouts := timeouts s;
     pending := pending s; sent := sent s; toasts := toasts s |}.

Definition set_intervals (l : list Interval) (s : State) : State :=
  {| message := message s; messages := messages s;
     isLoading := isLoading s; streamingContent := streamingContent s;
     intervals := l; timeouts := timeouts s; pending := pending s;
     sent := sent s; toasts := toasts s |}.

Definition set_timeouts (l : list Timeout) (s : State) : State :=
  {| message := message s; messages := messages s;
     isLoading := isLoading s; streamingContent := streamingContent s;
     intervals := intervals s; timeouts := l; pending := pending s;
     sent := sent s; toasts := toasts s |}.

(** [apiClient.post('/api/chat', body)]: the request leaves, the promise
    is pending. *)
Definition post (b : Api.ChatBody) (s : State) : State :=
  {| message := message s; messages := messages s;
     isLoading := isLoading s; streamingContent := streamingContent s;
     intervals := intervals s; timeouts := timeouts s; pending := true;
     sent := sent s ++ [b]; toasts := toasts s |}.

Definition settle (s : State) : State :=
  {| message := message s; messages := messages s;
     isLoading := isLoading s; streamingContent := streamingContent s;
     intervals := intervals s; timeouts := timeouts s; pending := false;
     sent := sent s; toasts := toasts s |}.

Definition toast (t : Toast) (s : State) : State :=
  {| message := message s; messages := messages s;
     isLoading := isLoading s; streamingContent := streamingContent s;
     intervals := intervals s; timeouts := timeouts s;
     pending := pending s; sent := sent s; toasts := toasts s ++ [t] |}.

(** *** [typewriterEffect] *)

(** The timer registered by [typewriterEffect(text, callback)]. *)
Definition typewriterEffect (text : JsString) : Interval :=
  {| iv_text := text; iv_i := 0; iv_cleared := false |}.

(** One firing of the interval's function: the new closure and the
    argument passed to [callback], if it is called. *)
Definition tick (iv : Interval) : Interval * option JsString :=
  if bool_decide (iv_i iv < length (iv_text iv)) then
    ({| iv_text := iv_text iv; iv_i := iv_i iv + 1;
        iv_cleared := iv_cleared iv |},
     Some (slice (iv_text iv) 0 (iv_i iv + 1)))
  else
    ({| iv_text := iv_text iv; iv_i := iv_i iv; iv_cleared := true |},
     None).

(** The interval left alone for [n] firings (a cleared timer does not
    fire): the closure at the end and the callback arguments in order. *)
Fixpoint ticks (n : nat) (iv : Interval) : Interval * list JsString :=
  match n with
  | 0 => (iv, [])
  | S n' =>
      if iv_cleared iv then (iv, [])
      else
        let '(iv', out) := tick iv in
        let '(iv'', outs) := ticks n' iv' in
        (iv'', match out with Some c => c :: outs | None => outs end)
  end.

(** *** [handleSubmit] *)

Definition userMessage (now stamp : Z) (s : State) : Message :=
  {| id := toString now; role := user; content := trim (message s);
     timestamp := stamp |}.

Definition project (m : Message) : Api.Turn :=
  {| Api.role := role_str (role m); Api.content := content m |}.

(** [handleSubmit] up to the [await]; [now] is [Date.now()] and [stamp]
    is [new Date()]. *)
Definition handleSubmit (now stamp : Z) (s : State) : State :=
  if negb (truthy (trim (message s))) || isLoading s then s
  else
    let um := userMessage now stamp s in
    let nextMessages := messages s ++ [um] in
    let s1 := setMessages (fun prev => prev ++ [um]) s in
    let s2 := setMessage [] s1 in
    let s3 := setIsLoading true s2 in
    let payload := project <$> nextMessages in
    post (Api.sendMessage payload (Some (lit "default"))) s3.

Definition responseText (r : Response) : JsString :=
  nullish (r_message r) (nullish (r_response r) []).

Definition assistantMessage (now stamp : Z) : Message :=
  {| id := toString (now + 1); role := assistant; content := [];
     timestamp := stamp |}.

(** The rest of the [try] block, run when the request succeeds, then
    [finally]. *)
Definition handleSubmit_fulfilled (r : Response) (now stamp : Z)
    (s : State) : State :=
  let text := responseText r in
  let am := assistantMessage now stamp in
  let s1 := setMessages (fun prev => prev ++ [am]) (settle s) in
  let s2 := setStreamingContent [] s1 in
  let s3 := set_intervals (intervals s2 ++ [typewriterEffect text]) s2 in
  let s4 :=
    set_timeouts
      (timeouts s3 ++
         [{| to_id := id am; to_text := text;
             to_delay := (Z.of_nat (length text) * 30 + 100)%Z;
             to_fired := false |}]) s3 in
  setIsLoading false s4.

(** The [catch] block, run when the request throws, then [finally]
    ([console.error] is not part of the state). *)
Definition handleSubmit_rejected (s : State) : State :=
  setIsLoading false
    (toast (ToastError (lit "Failed to send message. Please try again."))
       (settle s)).

(** The function given to [setTimeout]. *)
Definition timeout_body (t : Timeout) (s : State) : State :=
  setStreamingContent []
    (setMessages
       (fun prev =>
          (fun msg =>
             if eqb (id msg) (to_id t)
             then {| id := id msg; role := role msg;
                     content := to_text t; timestamp := timestamp msg |}
             else msg) <$> prev) s).

(** [handleKeyDown]: Enter without Shift submits. *)
Definition handleKeyDown (key : JsString) (shiftKey : bool) (now stamp : Z)
    (s : State) : State :=
  if eqb key (lit "Enter") && negb shiftKey then handleSubmit now stamp s
  else s.

(** *** What is rendered *)

(** The text shown in the bubble of [msg]. *)
Definition shown (s : State) (msg : Message) : JsString :=
  if bool_decide (role msg = assistant) && eqb (content msg) []
     && truthy (streamingContent s)
  then streamingContent s
  else content msg.

(** [disabled] of the input, the Send button, and the quick-action
    buttons. *)
Definition input_disabled (s : State) : bool := isLoading s.
Definition send_disabled (s : State) : bool :=
  negb (truthy (trim (message s))) || isLoading s.
Definition quick_disabled (s : State) : bool := isLoading s.

(** *** Events *)

Inductive Quick := AskAboutMe | LearnFromInsights | JamOnAProblem.

Definition quick_text (q : Quick) : JsString :=
  match q with
  | AskAboutMe => lit "Tell me about yourself"
  | LearnFromInsights => lit "What insights do you have?"
  | JamOnAProblem => lit "Help me solve a problem"
  end.

(** [onClick] of a quick-action button. *)
Definition quickAction (q : Quick) (s : State) : State :=
  setMessage (quick_text q) s.

(** The events the component reacts to.  A disabled control delivers no
    event; a cleared interval and a fired timeout do not fire. *)
Inductive Event :=
| Change (v : JsString)            (* onChange of the input *)
| Submit (now stamp : Z)           (* form submit or Enter *)
| Click (q : Quick)                (* a quick-action button *)
| Fulfilled (r : Response) (now stamp : Z)
| Rejected
| Tick (k : nat)                   (* interval number k fires *)
| Fire (k : nat).                  (* timeout number k fires *)

(** Interval [k] fires: its function runs, and the callback given in
    [handleSubmit] stores the argument in [streamingContent]. *)
Definition fire_interval (k : nat) (s : State) : State :=
  match intervals s !! k with
  | Some iv =>
      if iv_cleared iv then s
      else
        let '(iv', out) := tick iv in
        let s1 := set_intervals (<[k := iv']> (intervals s)) s in
        match out with
        | Some c => setStreamingContent c s1
        | None => s1
        end
  | None => s
  end.

Definition fire_timeout (k : nat) (s : State) : State :=
  match timeouts s !! k with
  | Some t =>
      if to_fired t then s
      else
        let t' := {| to_id := to_id t; to_text := to_text t;
                     to_delay := to_delay t; to_fired := true |} in
        timeout_body t (set_timeouts (<[k := t']> (timeouts s)) s)
  | None => s
  end.

Definition react (e : Event) (s : State) : State :=
  match e with
  | Change v => if input_disabled s then s else setMessage v s
  | Submit now stamp => handleSubmit now stamp s
  | Click q => if quick_disabled s then s else quickAction q s
  | Fulfilled r now stamp =>
      if pending s then handleSubmit_fulfilled r now stamp s else s
  | Rejected => if pending s then handleSubmit_rejected s else s
  | Tick k => fire_interval k s
  | Fire k => fire_timeout k s
  end.

Definition run (es : list Event) (s : State) : State :=
  foldl (fun st e => react e st) s es.

(** *** Auxiliary notions for the reveal *)

(** The callback arguments of a reveal of [text] that has already shown
    [i] characters and fires [n] more times. *)
Definition prefixes (text : JsString) (i n : nat) : list JsString :=
  (fun j => take (S j) text) <$> seq i (n `min` (length text - i)).

(** The state after interval [k] has stored [c] and become [iv]. *)
Definition revealed (k : nat) (iv : Interval) (c : JsString) (s : State)
  : State :=
  setStreamingContent c (set_intervals (<[k := iv]> (intervals s)) s).

(** The fixed generation parameters of a chat request. *)
Definition fixed_parameters (b : Api.ChatBody) : Prop :=
  Api.temperature b = Qmake 7 10 /\ Api.max_tokens b = 1000%Z /\
  Api.use_context b = true.

(** What every request of the chat view looks like. *)
Definition view_request (b : Api.ChatBody) : Prop :=
  fixed_parameters b /\ Api.persona_id b = Some (lit "default").

(** *** Further notions of the component *)

(** The period given to [setInterval] by [typewriterEffect], in ms. *)
Definition interval_ms : Z := 8.

(** The messages panel is rendered when [messages.length > 0]; the
    bouncing dots are inside it, under [isLoading]. *)
Definition panel_rendered (s : State) : bool :=
  bool_decide (0 < length (messages s)).
Definition dots_rendered (s : State) : bool :=
  panel_rendered s && isLoading s.

(** What no handler ever changes in a message. *)
Definition frame (m : Message) : JsString * Role * Z :=
  (id m, role m, timestamp m).

(** The function mapped over the messages by the timeout of a turn. *)
Definition fill (t : Timeout) (msg : Message) : Message :=
  if eqb (id msg) (to_id t)
  then {| id := id msg; role := role msg; content := to_text t;
          timestamp := timestamp msg |}
  else msg.

(** How many messages of a role a list holds. *)
Definition count_role (r : Role) (l : list Message) : nat :=
  length (filter (fun x => x = r) (role <$> l)).

(** Events by which the user puts text into the input. *)
Definition types_input (e : Event) : bool :=
  match e with Change _ | Click _ => true | _ => false end.

Definition is_tick (e : Event) : bool :=
  match e with Tick _ => true | _ => false end.

(** The invariant of the states reached from [init]. *)
Definition consistent (s : State) : Prop :=
  isLoading s = pending s /\
  count_role user (messages s) = length (sent s) /\
  count_role assistant (messages s) = length (intervals s) /\
  length (intervals s) = length (timeouts s) /\
  length (intervals s) + (if pending s then 1 else 0) <= length (sent s) /\
  (isLoading s = true -> message s = []).




End Chat.

(** ** [components/DataIngestion.tsx] *)

Module Ingestion.

(** The [result] cell. *)
Record Result := { success : bool; message : JsString }.

(** [response.data] of a successful call; a missing field is [None]. *)
Record Data := {
  chunks_processed : option Z;
  chunksCreated : option Z;
  d_message : option JsString
}.

Record State := {
  (* useState cells *)
  text : JsString;
  isProcessing : bool;
  result : option Result;
  (* browser side *)
  pending : bool;
  sent : list (Api.IngestBody Empty_set);
  toasts : list Toast
}.

Definition init : State :=
  {| text := []; isProcessing := false; result := None; pending := false;
     sent := []; toasts := [] |}.

Definition setText (v : JsString) (s : State) : State :=
  {| text := v; isProcessing := isProcessing s; result := result s;
     pending := pending s; sent := sent s; toasts := toasts s |}.

Definition setIsProcessing (b : bool) (s : State) : State :=
  {| text := text s; isProcessing := b; result := result s;
     pending := pending s; sent := sent s; toasts := toasts s |}.

Definition setResult (r : option Result) (s : State) : State :=
  {| text := text s; isProcessing := isProcessing s; result := r;
     pending := pending s; sent := sent s; toasts := toasts s |}.

Definition post (b : Api.IngestBody Empty_set) (s : State) : State :=
  {| text := text s; isProcessing := isProcessing s; result := result s;
     pending := true; sent := sent s ++ [b]; toasts := toasts s |}.

Definition settle (s : State) : State :=
  {| text := text s; isProcessing := isProcessing s; result := result s;
     pending := false; sent := sent s; toasts := toasts s |}.

Definition toast (t : Toast) (s : State) : State :=
  {| text := text s; isProcessing := isProcessing s; result := result s;
     pending := pending s; sent := sent s; toasts := toasts s ++ [t] |}.

(** [handleIngest] up to the [await]. *)
Definition handleIngest (selectedPersona : JsString) (s : State) : State :=
  if negb (truthy (trim (text s))) then
    toast (ToastError (lit "Please enter some text to ingest")) s
  else
    let s1 := setIsProcessing true s in
    let s2 := setResult None s1 in
    post (Api.ingestData (trim (text s)) (Some selectedPersona)) s2.

(** The rest of the [try] block ([data] is [response.data]), then
    [finally]. *)
Definition handleIngest_fulfilled (data : option Data) (s : State) : State :=
  let chunksProcessed :=
    nullish (data ≫= chunks_processed)
      (nullish (data ≫= chunksCreated) 0%Z) in
  let serverMessage := data ≫= d_message in
  let s1 :=
    setResult
      (Some {| success := true;
               message :=
                 or_else serverMessage
                   (lit "Successfully processed " ++ toString chunksProcessed
                      ++ lit " text chunks into embeddings") |})
      (settle s) in
  let s2 := toast (ToastSuccess (lit "Data ingested successfully!")) s1 in
  let s3 := setText [] s2 in
  setIsProcessing false s3.

(** The [catch] block ([detail] is [error.response?.data?.detail]), then
    [finally]. *)
Definition handleIngest_rejected (detail : option JsString) (s : State)
  : State :=
  let errorMessage := or_else detail (lit "Failed to ingest data") in
  let s1 :=
    setResult (Some {| success := false; message := errorMessage |})
      (settle s) in
  let s2 := toast (ToastError errorMessage) s1 in
  setIsProcessing false s2.

Definition getCharacterCount (s : State) : nat := length (text s).

(** *** What is rendered *)

Definition x_button_rendered (s : State) : bool := truthy (text s).
Definition x_button_disabled (s : State) : bool := isProcessing s.
Definition textarea_disabled (s : State) : bool := isProcessing s.
Definition clear_disabled (s : State) : bool :=
  negb (truthy (text s)) || isProcessing s.
Definition ingest_disabled (s : State) : bool :=
  isProcessing s || negb (truthy (trim (text s))).

(** *** Events *)

Inductive Event :=
| Change (v : JsString)              (* onChange of the textarea *)
| ClickX                             (* the X button next to the counters *)
| ClickClear                         (* the Clear Text button *)
| ClickIngest                        (* the Ingest Data button *)
| Fulfilled (data : option Data)
| Rejected (detail : option JsString).

Definition react (selectedPersona : JsString) (e : Event) (s : State)
  : State :=
  match e with
  | Change v => if textarea_disabled s then s else setText v s
  | ClickX =>
      if x_button_rendered s && negb (x_button_disabled s)
      then setText [] s else s
  | ClickClear => if clear_disabled s then s else setText [] s
  | ClickIngest =>
      if ingest_disabled s then s else handleIngest selectedPersona s
  | Fulfilled data => if pending s then handleIngest_fulfilled data s else s
  | Rejected detail =>
      if pending s then handleIngest_rejected detail s else s
  end.

Definition run (selectedPersona : JsString) (es : list Event) (s : State)
  : State :=
  foldl (fun st e => react selectedPersona e st) s es.

(** Events that are a user's clearing or editing of the text, or the
    success of an ingestion. *)
Definition touches_text (e : Event) : bool :=
  match e with
  | Change _ | ClickX | ClickClear | Fulfilled _ => true
  | ClickIngest | Rejected _ => false
  end.

(** *** [getWordCount] *)

(** [s.split(/\s+/)]: the pieces between the maximal runs of white space
    ([\s] matches the code units of [is_ws]); a run at either end leaves
    an empty piece there, and [''] gives [['']].  [cur] is the piece being
    read, reversed, and [in_sep] tells that a run is being skipped. *)
Fixpoint split_ws_from (cur : JsString) (in_sep : bool) (s : JsString)
  : list JsString :=
  match s with
  | [] => [reverse cur]
  | c :: s' =>
      if is_ws c then
        if in_sep then split_ws_from [] true s'
        else reverse cur :: split_ws_from [] true s'
      else split_ws_from (c :: cur) false s'
  end.

Definition split_ws (s : JsString) : list JsString :=
  split_ws_from [] false s.

(** [text.trim().split(/\s+/).filter(word => word.length > 0).length] *)
Definition getWordCount (s : State) : nat :=
  length (filter (fun word => 0 < length word) (split_ws (trim (text s)))).

(** The number of maximal runs of non-white-space characters: a character
    that is not white space starts a run when it comes first or after
    white space ([fresh]). *)
Fixpoint runs (fresh : bool) (s : JsString) : nat :=
  match s with
  | [] => 0
  | c :: s' =>
      if is_ws c then runs true s'
      else (if fresh then 1 else 0) + runs false s'
  end.

(** The invariant of the states the view reaches from [init]. *)
Definition consistent (s : State) : Prop :=
  isProcessing s = pending s.

(** The number shown by the fallback success message:
    [chunks_processed] when the response has it (also when it is 0),
    else [chunksCreated], else 0. *)
Definition reported_chunks (data : option Data) : Z :=
  match data with
  | Some {| chunks_processed := Some n |} => n
  | Some {| chunks_processed := None; chunksCreated := Some n |} => n
  | _ => 0%Z
  end.

(** How many pieces of a split are not empty. *)
Definition nonempty_pieces (l : list JsString) : nat :=
  length (filter (fun word => 0 < length word) l).

(** What every request of the view looks like, for the persona [p]. *)
Definition view_request (p : JsString) (b : Api.IngestBody Empty_set)
  : Prop :=
  Api.text b <> [] /\ trim (Api.text b) = Api.text b /\
  Api.ingest_persona_id b = Some p /\ Api.metadata b = None.

End Ingestion.

(** ** The ingestion endpoint and its table *)

Module Server.

(** A row of [discovery-flow.persona.embeddings] ([bigquery_schema.sql]);
    [F] stands for FLOAT64 and [J] for JSON, and a column that is not
    declared NOT NULL is an option. *)
Record EmbeddingChunk (F J : Type) := {
  id : JsString;
  text : JsString;
  embedding : list F;
  metadata : option J;
  created_at : option Z;
  persona_id : JsString;
  chunk_index : option Z
}.
Arguments id {F J}.
Arguments text {F J}.
Arguments embedding {F J}.
Arguments metadata {F J}.
Arguments created_at {F J}.
Arguments persona_id {F J}.
Arguments chunk_index {F J}.

Inductive Error := ValidationError | ProviderError | StorageError.

Record IngestResponse := { chunks_processed : nat; message : JsString }.

(** Modelled from the spec: the chunking of the ingestion endpoint (the
    backend handler is not among the sources).  The policy is the one the
    spec names as its default, character windows of a fixed [size]. *)
Definition chunk_text (size : nat) (t : JsString) : list JsString :=
  (fun i => slice t (i * size) (i * size + size))
    <$> seq 0 ((length t + size - 1) / size).

(** Modelled from the spec: one row per chunk, [chunk_index] being the
    0-based position of the chunk in its source text; the row ids come
    from the generator [new_id], the timestamp is [now]. *)
Definition make_rows {F J} (new_id : nat -> JsString) (now : Z)
    (persona : JsString) (meta : option J)
    (embedded : list (JsString * list F)) : list (EmbeddingChunk F J) :=
  imap (fun i cv =>
          {| id := new_id i; text := cv.1; embedding := cv.2;
             metadata := meta; created_at := Some now;
             persona_id := persona;
             chunk_index := Some (Z.of_nat i) |}) embedded.

(** Modelled from the spec: the ingestion endpoint (section 4.1; the
    backend handler is not among the sources).  [embed] is the embedding
    provider and [writable] tells whether the vector store accepts the
    write; the result is the response or the error, and the table after
    the call. *)
Definition ingest {F J} (size : nat) (embed : JsString -> option (list F))
    (writable : list (EmbeddingChunk F J) -> bool)
    (new_id : nat -> JsString) (reply : nat -> JsString) (now : Z)
    (req : Api.IngestBody J) (table : list (EmbeddingChunk F J))
  : (Error + IngestResponse) * list (EmbeddingChunk F J) :=
  if blank (Api.text req) then (inl ValidationError, table)
  else
    let chunks := chunk_text size (Api.text req) in
    match mapM embed chunks with
    | None => (inl ProviderError, table)
    | Some vectors =>
        let persona := nullish (Api.ingest_persona_id req) (lit "default") in
        let rows :=
          make_rows (fun i => new_id (length table + i)) now persona
            (Api.metadata req) (zip chunks vectors) in
        if writable rows
        then (inr {| chunks_processed := length rows;
                     message := reply (length rows) |},
              table ++ rows)
        else (inl StorageError, table)
    end.

End Server.

(** ** [AccordionItem] of the RightSidebar component, third document of
    [src/frontend/src/components/ProfileHero.tsx] *)

Module Sidebar.

(** The props that matter: [defaultOpen] (optional, default [false]) and
    whether a [headerRight] node is given. *)
Record Props := { defaultOpen : option bool; headerRight : bool }.

(** The [isOpen] cell, initialised by [useState(defaultOpen)]. *)
Definition init (p : Props) : bool := nullish (defaultOpen p) false.

(** [onClick] of the header button: [setIsOpen(!isOpen)]. *)
Definition toggle (isOpen : bool) : bool := negb isOpen.

Definition clicks (n : nat) (isOpen : bool) : bool :=
  Nat.iter n toggle isOpen.

(** [headerRight && !isOpen] and [isOpen &&]. *)
Definition headerRight_rendered (p : Props) (isOpen : bool) : bool :=
  headerRight p && negb isOpen.
Definition children_rendered (isOpen : bool) : bool := isOpen.

End Sidebar.

(** ** Concrete scenarios *)

Module Scenario.

(** A user has typed "hi" into a fresh chat view. *)
Definition typed_hi : Chat.State := Chat.setMessage (lit "hi") Chat.init.

(** The request of [typed_hi] is in flight. *)
Definition sending_hi : Chat.State := Chat.handleSubmit 1700 1700 typed_hi.

(** A user has typed "abc" into a fresh ingestion view. *)
Definition typed_abc : Ingestion.State :=
  Ingestion.setText (lit "abc") Ingestion.init.

(** A user has typed two spaces. *)
Definition typed_spaces : Ingestion.State :=
  Ingestion.setText (lit "  ") Ingestion.init.

(** A stub provider: every text gets the same vector. *)
Definition constant_embed (t : JsString) : option (list nat) :=
  Some [1; 2; 3].

Definition row_id (i : nat) : JsString :=
  lit "chunk-" ++ toString (Z.of_nat i).

Definition chunks_reply (n : nat) : JsString :=
  lit "Processed " ++ toString (Z.of_nat n) ++ lit " chunks".





End Scenario.

(** * Properties *)

(** ** Strings *)

Module JsFacts.

Lemma trimStart_nil_blank s : trimStart s = [] <-> blank s = true.
Proof.
  induction s as [|c s IH]; simpl; [done|].
  destruct (is_ws c); simpl; [done|]. split; discriminate.
Qed.

Lemma trimStart_blank_or_kept s :
  trimStart s = [] \/ exists c r, trimStart s = c :: r /\ is_ws c = false.
Proof.
  induction s as [|c s IH]; simpl; [by left|].
  destruct (is_ws c) eqn:E; [done|]. right. by exists c, s.
Qed.

Lemma blank_app a b : blank (a ++ b) = blank a && blank b.
Proof. apply forallb_app. Qed.

Lemma blank_reverse s : blank (reverse s) = blank s.
Proof.
  induction s as [|c s IH]; [done|].
  rewrite reverse_cons, blank_app, IH. simpl.
  rewrite andb_true_r. apply andb_comm.
Qed.

(** [s.trim()] is [''] exactly when [s] is empty or white space only. *)
Lemma trim_nil_blank s : trim s = [] <-> blank s = true.
Proof.
  unfold trim, trimEnd. split.
  - intros H. apply (f_equal reverse) in H.
    rewrite reverse_involutive in H. change (reverse []) with (@nil N) in H.
    apply trimStart_nil_blank in H. rewrite blank_reverse in H.
    destruct (trimStart_blank_or_kept s) as [E|(c & r & E & Hc)].
    + by apply trimStart_nil_blank.
    + rewrite E in H. simpl in H. by rewrite Hc in H.
  - intros H. apply trimStart_nil_blank in H. by rewrite H.
Qed.

Lemma falsy_trim_blank s : negb (truthy (trim s)) = blank s.
Proof.
  destruct (blank s) eqn:E.
  - apply trim_nil_blank in E. by rewrite E.
  - destruct (trim s) eqn:T; [|done].
    apply trim_nil_blank in T. congruence.
Qed.

Lemma slice_0 s n : slice s 0 n = take n s.
Proof. unfold slice. by rewrite Nat.sub_0_r. Qed.

End JsFacts.

(** ** The typewriter interval *)

Module Typewriter.
Import Chat.

Lemma tick_more iv :
  iv_i iv < length (iv_text iv) ->
  tick iv = ({| iv_text := iv_text iv; iv_i := S (iv_i iv);
                iv_cleared := iv_cleared iv |},
             Some (take (S (iv_i iv)) (iv_text iv))).
Proof.
  intros H. unfold tick. rewrite bool_decide_eq_true_2 by done.
  by rewrite JsFacts.slice_0, Nat.add_1_r.
Qed.

Lemma tick_done iv :
  length (iv_text iv) <= iv_i iv ->
  tick iv = ({| iv_text := iv_text iv; iv_i := iv_i iv;
                iv_cleared := true |}, None).
Proof.
  intros H. unfold tick. by rewrite bool_decide_eq_false_2 by lia.
Qed.

Lemma ticks_cleared n iv : iv_cleared iv = true -> ticks n iv = (iv, []).
Proof. intros H. destruct n; simpl; [done|]. by rewrite H. Qed.

Lemma ticks_spec n : forall text i,
  i <= length text ->
  ticks n {| iv_text := text; iv_i := i; iv_cleared := false |} =
    (if decide (i + n <= length text)
     then {| iv_text := text; iv_i := i + n; iv_cleared := false |}
     else {| iv_text := text; iv_i := length text; iv_cleared := true |},
     prefixes text i n).
Proof.
  induction n as [|n IH]; intros text i Hi.
  - simpl. rewrite decide_True by lia. by rewrite Nat.add_0_r.
  - cbn [ticks iv_cleared]. destruct (decide (i < length text)) as [Hlt|Hge].
    + rewrite tick_more by done. cbn [iv_text iv_i iv_cleared].
      rewrite IH by lia. unfold prefixes.
      replace (S n `min` (length text - i))
        with (S (n `min` (length text - S i))) by lia.
      cbn [seq fmap list_fmap]. f_equal.
      destruct (decide (S i + n <= length text)),
        (decide (i + S n <= length text)); try lia; [|done].
      f_equal. lia.
    + assert (i = length text) as -> by lia.
      rewrite tick_done by done. cbn [iv_text iv_i].
      rewrite ticks_cleared by done. rewrite decide_False by lia.
      unfold prefixes. by rewrite Nat.sub_diag, Nat.min_0_r.
Qed.

Lemma prefixes_length text i n :
  length (prefixes text i n) = n `min` (length text - i).
Proof. unfold prefixes. by rewrite length_fmap, length_seq. Qed.

Lemma prefixes_lookup text i n j c :
  prefixes text i n !! j = Some c ->
  c = take (S (i + j)) text /\ j < n /\ i + j < length text.
Proof.
  unfold prefixes. rewrite list_lookup_fmap. intros H.
  destruct (seq i (n `min` (length text - i)) !! j) as [x|] eqn:E;
    [|done].
  apply lookup_seq in E as [-> Hj]. simpl in H. split; [congruence|lia].
Qed.

Lemma prefixes_last text n :
  default [] (last (prefixes text 0 n)) = take n text.
Proof.
  unfold prefixes. rewrite Nat.sub_0_r.
  destruct (n `min` length text) as [|m] eqn:E.
  - simpl. destruct n; [done|]. destruct text; [done|simpl in E; lia].
  - rewrite seq_S, fmap_app. cbn [fmap list_fmap]. rewrite last_snoc. simpl.
    destruct (decide (n <= length text)).
    + by replace (S m) with n by lia.
    + rewrite !take_ge by lia. done.
Qed.

Lemma revealed_id k iv s :
  intervals s !! k = Some iv -> revealed k iv (streamingContent s) s = s.
Proof.
  intros H. unfold revealed, setStreamingContent, set_intervals. simpl.
  rewrite list_insert_id by done. by destruct s.
Qed.

Lemma revealed_twice k iv1 c1 iv2 c2 s :
  revealed k iv2 c2 (revealed k iv1 c1 s) = revealed k iv2 c2 s.
Proof.
  unfold revealed, setStreamingContent, set_intervals. simpl.
  by rewrite list_insert_insert_eq.
Qed.

Lemma fire_interval_live k iv s :
  intervals s !! k = Some iv -> iv_cleared iv = false ->
  fire_interval k s =
    revealed k (tick iv).1 (default (streamingContent s) (tick iv).2) s.
Proof.
  intros H Hc. unfold fire_interval. rewrite H, Hc.
  destruct (tick iv) as [iv' [c|]]; simpl; [done|].
  unfold revealed, setStreamingContent, set_intervals. simpl. done.
Qed.

Lemma fire_interval_cleared k iv s :
  intervals s !! k = Some iv -> iv_cleared iv = true ->
  fire_interval k s = s.
Proof. intros H Hc. unfold fire_interval. by rewrite H, Hc. Qed.

Lemma ticks_step n iv :
  iv_cleared iv = false ->
  ticks (S n) iv =
    ((ticks n (tick iv).1).1,
     match (tick iv).2 with
     | Some c => c :: (ticks n (tick iv).1).2
     | None => (ticks n (tick iv).1).2
     end).
Proof.
  intros H. cbn [ticks]. rewrite H.
  destruct (tick iv) as [iv' o]. simpl. by destruct (ticks n iv').
Qed.

Lemma run_cons e es s : run (e :: es) s = run es (react e s).
Proof. done. Qed.

Lemma run_app es1 es2 s : run (es1 ++ es2) s = run es2 (run es1 s).
Proof. apply foldl_app. Qed.

(** [n] firings of interval [k], seen on the component. *)
Lemma run_ticks n : forall k iv s,
  intervals s !! k = Some iv ->
  run (replicate n (Tick k)) s =
    revealed k (ticks n iv).1
      (default (streamingContent s) (last (ticks n iv).2)) s.
Proof.
  induction n as [|n IH]; intros k iv s H.
  - simpl. by rewrite revealed_id.
  - change (replicate (S n) (Tick k)) with (Tick k :: replicate n (Tick k)).
    rewrite run_cons. cbn [react].
    destruct (iv_cleared iv) eqn:Hc.
    + rewrite (fire_interval_cleared k iv) by done.
      rewrite (IH k iv) by done. by rewrite !ticks_cleared.
    + rewrite (fire_interval_live k iv) by done.
      rewrite ticks_step by done.
      assert (intervals
                (revealed k (tick iv).1
                   (default (streamingContent s) (tick iv).2) s) !! k
              = Some (tick iv).1) as H'.
      { simpl. apply list_lookup_insert_eq. by eapply lookup_lt_Some. }
      rewrite (IH k _ _ H'), revealed_twice. f_equal. simpl.
      destruct (tick iv).2 as [c|]; simpl; [|done].
      rewrite last_cons. by destruct (last (ticks n (tick iv).1).2).
Qed.

End Typewriter.

(** ** The chat view *)

Module ChatFacts.
Import Chat Typewriter.

Lemma handleSubmit_ignored now stamp s :
  isLoading s = true \/ blank (message s) = true ->
  handleSubmit now stamp s = s.
Proof.
  intros H. unfold handleSubmit. rewrite JsFacts.falsy_trim_blank.
  destruct H as [-> | ->]; [by rewrite orb_true_r | done].
Qed.

Lemma handleSubmit_accepted now stamp s :
  blank (message s) = false -> isLoading s = false ->
  handleSubmit now stamp s =
    post
      (Api.sendMessage (project <$> (messages s ++ [userMessage now stamp s]))
         (Some (lit "default")))
      (setIsLoading true
         (setMessage []
            (setMessages (fun prev => prev ++ [userMessage now stamp s]) s))).
Proof.
  intros Hb Hl. unfold handleSubmit.
  by rewrite JsFacts.falsy_trim_blank, Hb, Hl.
Qed.

Lemma eqb_refl a : eqb a a = true.
Proof. unfold eqb. by apply bool_decide_eq_true_2. Qed.

(** The message list after the timeout of a turn has run. *)
Lemma timeout_body_last t s m :
  last (messages s) = Some m -> id m = to_id t ->
  last (messages (timeout_body t s)) =
    Some {| id := id m; role := role m; content := to_text t;
            timestamp := timestamp m |}.
Proof.
  intros Hl Hid. apply last_Some in Hl as [l Hl].
  unfold timeout_body. simpl. rewrite Hl, fmap_app. cbn [fmap list_fmap].
  by rewrite last_snoc, Hid, eqb_refl.
Qed.

Lemma shown_placeholder s m :
  role m = assistant -> content m = [] -> shown s m = streamingContent s.
Proof.
  intros Hr Hc. unfold shown. rewrite Hr, Hc. simpl.
  by destruct (streamingContent s).
Qed.

End ChatFacts.

Module ChatClaims.
Import Chat Typewriter ChatFacts Scenario.

(** C8.  While a request is in flight ([isLoading]) the input and the Send
    button are disabled, and a submit attempted while loading or with a
    blank message (by the form or by Enter) changes nothing: the state,
    and with it the list of requests sent, stays as it was. *)
Theorem submit_guard s now stamp key shiftKey :
  isLoading s = true \/ blank (message s) = true ->
  send_disabled s = true /\
  (isLoading s = true -> input_disabled s = true) /\
  handleSubmit now stamp s = s /\
  react (Submit now stamp) s = s /\
  handleKeyDown key shiftKey now stamp s = s /\
  sent (handleSubmit now stamp s) = sent s.
Proof.
  intros H. pose proof (handleSubmit_ignored now stamp s H) as E.
  repeat split; try done.
  - unfold send_disabled. rewrite JsFacts.falsy_trim_blank.
    destruct H as [-> | ->]; [apply orb_true_r | done].
  - unfold handleKeyDown. rewrite E. by destruct (_ && _).
  - by rewrite E.
Qed.

Lemma submit_guard_witness :
  send_disabled sending_hi = true /\
  input_disabled sending_hi = true /\
  handleSubmit 1800 1800 sending_hi = sending_hi /\
  handleKeyDown (lit "Enter") false 1800 1800 sending_hi = sending_hi.
Proof.
  assert (isLoading sending_hi = true \/ blank (message sending_hi) = true)
    as H by (left; reflexivity).
  destruct (submit_guard sending_hi 1800 1800 (lit "Enter") false H)
    as (H1 & H2 & H3 & _ & H5 & _).
  exact (conj H1 (conj (H2 eq_refl) (conj H3 H5))).
Defined.

(** C9.  A quick-action button stores its fixed prompt in the input cell
    and does nothing else: the message list, the loading flag, the
    streaming buffer, the timers, the pending request, the requests sent
    and the toasts are as before. *)
Theorem quick_action_prefills_only q s :
  message (quickAction q s) = quick_text q /\
  messages (quickAction q s) = messages s /\
  isLoading (quickAction q s) = isLoading s /\
  streamingContent (quickAction q s) = streamingContent s /\
  intervals (quickAction q s) = intervals s /\
  timeouts (quickAction q s) = timeouts s /\
  pending (quickAction q s) = pending s /\
  sent (quickAction q s) = sent s /\
  toasts (quickAction q s) = toasts s /\
  sent (react (Click q) s) = sent s /\
  messages (react (Click q) s) = messages s /\
  isLoading (react (Click q) s) = isLoading s /\
  quick_text q ∈ [lit "Tell me about yourself";
                  lit "What insights do you have?";
                  lit "Help me solve a problem"].
Proof.
  repeat split; try done; try (simpl; by destruct (quick_disabled s)).
  destruct q; simpl; repeat constructor.
Qed.



(** C1, as stated, fails: after a failed request the message list is not
    the one before the submit. *)
Lemma failed_turn_not_rolled_back :
  messages (react Rejected (handleSubmit 1700 1700 typed_hi))
    <> messages typed_hi.
Proof. vm_compute. discriminate. Qed.

(** C1, amended.  When the request of an accepted submit throws, the view
    returns to idle ([isLoading] false, nothing pending) and shows the
    error toast; the user message of the failed turn stays at the end of
    the message list, the input stays cleared, no assistant message is
    added, and the streaming buffer and the timers are untouched. *)
Theorem failed_turn_keeps_user_message s now stamp :
  blank (message s) = false -> isLoading s = false ->
  let s' := react Rejected (handleSubmit now stamp s) in
  isLoading s' = false /\
  pending s' = false /\
  toasts s' =
    toasts s ++
      [ToastError (lit "Failed to send message. Please try again.")] /\
  messages s' = messages s ++ [userMessage now stamp s] /\
  message s' = [] /\
  streamingContent s' = streamingContent s /\
  intervals s' = intervals s /\
  timeouts s' = timeouts s /\
  length (sent s') = S (length (sent s)).
Proof.
  intros Hb Hl s'. subst s'. rewrite handleSubmit_accepted by done.
  simpl. repeat split; try done. rewrite length_app. simpl. lia.
Qed.

Lemma failed_turn_keeps_user_message_witness :
  let s' := react Rejected (handleSubmit 1700 1700 typed_hi) in
  isLoading s' = false /\
  messages s' =
    [{| id := lit "1700"; role := user; content := lit "hi";
        timestamp := 1700 |}] /\
  message s' = [].
Proof.
  destruct (failed_turn_keeps_user_message typed_hi 1700 1700)
    as (H1 & _ & _ & H4 & H5 & _); [reflexivity | reflexivity |].
  exact (conj H1 (conj H4 H5)).
Defined.

End ChatClaims.

Module RevealClaims.
Import Chat Typewriter ChatFacts.

Lemma fulfilled_registers r now stamp s :
  let text := responseText r in
  let s1 := handleSubmit_fulfilled r now stamp s in
  intervals s1 = intervals s ++ [typewriterEffect text] /\
  timeouts s1 =
    timeouts s ++
      [{| to_id := toString (now + 1); to_text := text;
          to_delay := (Z.of_nat (length text) * 30 + 100)%Z;
          to_fired := false |}] /\
  messages s1 = messages s ++ [assistantMessage now stamp] /\
  streamingContent s1 = [] /\
  isLoading s1 = false.
Proof. done. Qed.

Lemma lookup_snoc {A} (l : list A) (x : A) : (l ++ [x]) !! length l = Some x.
Proof. rewrite lookup_app_r by done. by rewrite Nat.sub_diag. Qed.

(** The reveal of the interval created for [text], after [n] firings. *)
Lemma reveal_after n k text s :
  intervals s !! k = Some (typewriterEffect text) ->
  streamingContent s = [] ->
  run (replicate n (Tick k)) s =
    revealed k (ticks n (typewriterEffect text)).1 (take n text) s.
Proof.
  intros Hk Hs. rewrite (run_ticks n k _ s Hk). f_equal.
  unfold typewriterEffect. rewrite ticks_spec by lia. cbn [snd].
  rewrite Hs. apply prefixes_last.
Qed.

(** C10.  The interval of [typewriterEffect(text, callback)] calls the
    callback [text.length] times, the j-th call (from 0) with the first
    j+1 characters; the firing after that calls [clearInterval]; before
    that the timer is still registered, and afterwards it never fires
    again: further firings change neither the closure nor the component. *)
Theorem typewriter_clears_itself (text : JsString) :
  let n := length text in
  ticks (S n) (typewriterEffect text) =
    ({| iv_text := text; iv_i := n; iv_cleared := true |},
     (fun j => take (S j) text) <$> seq 0 n) /\
  length (ticks (S n) (typewriterEffect text)).2 = n /\
  (forall j c, (ticks (S n) (typewriterEffect text)).2 !! j = Some c ->
     c = take (S j) text /\ length c = S j) /\
  (forall m, m <= n ->
     iv_cleared (ticks m (typewriterEffect text)).1 = false /\
     length (ticks m (typewriterEffect text)).2 = m) /\
  (forall m, ticks (S n + m) (typewriterEffect text) =
             ticks (S n) (typewriterEffect text)) /\
  (forall s k, intervals s !! k = Some (typewriterEffect text) ->
     let s' := run (replicate (S n) (Tick k)) s in
     intervals s' !! k =
       Some {| iv_text := text; iv_i := n; iv_cleared := true |} /\
     forall m, run (replicate m (Tick k)) s' = s').
Proof.
  intros n. unfold typewriterEffect.
  assert (forall m, ticks (S n + m)
                      {| iv_text := text; iv_i := 0; iv_cleared := false |} =
            ({| iv_text := text; iv_i := n; iv_cleared := true |},
             (fun j => take (S j) text) <$> seq 0 n)) as Hall.
  { intros m. rewrite ticks_spec by lia. rewrite decide_False by (unfold n; lia).
    f_equal. unfold prefixes. do 2 f_equal. unfold n. lia. }
  pose proof (Hall 0) as H0. rewrite Nat.add_0_r in H0.
  split; [exact H0|]. rewrite H0. cbn [snd].
  split; [by rewrite length_fmap, length_seq|].
  split.
  { intros j c Hj. rewrite list_lookup_fmap in Hj.
    destruct (seq 0 n !! j) as [x|] eqn:E; [|done].
    apply lookup_seq in E as [-> Hlt]. simpl in Hj.
    injection Hj as <-. split; [done|]. rewrite length_take. unfold n in Hlt. lia. }
  split.
  { intros m Hm. rewrite ticks_spec by lia. rewrite decide_True by (unfold n in Hm; lia).
    split; [done|]. cbn [snd]. rewrite prefixes_length. unfold n in Hm. lia. }
  split; [intros m; by rewrite Hall|].
  intros s k Hk. set (s' := run (replicate (S n) (Tick k)) s).
  assert (intervals s' !! k =
            Some {| iv_text := text; iv_i := n; iv_cleared := true |}) as Hk'.
  { unfold s'. rewrite (run_ticks (S n) k _ s Hk), H0. simpl.
    apply list_lookup_insert_eq. by eapply lookup_lt_Some. }
  split; [exact Hk'|].
  intros m. rewrite (run_ticks m k _ s' Hk'), ticks_cleared by done.
  simpl. by apply revealed_id.
Qed.

(** The reveal of a turn whose timers are the only events.  For an
    accepted submit answered by the response [r]:
    - while the request is in flight no timer exists and the streaming
      buffer is untouched; the interval and the timeout are registered by
      the continuation that holds the whole response text;
    - after [n] firings of the interval the streaming buffer, and with it
      the text shown in the assistant bubble, is the prefix of length [n]
      of the response text (the whole text from [text.length] on), and
      each firing before the end adds one character;
    - whenever the timeout then fires, the assistant message, last in the
      list, has the response text as its content, the buffer is empty,
      and the bubble shows the response text. *)
Lemma reveal_is_cosmetic s now stamp r now' stamp' :
  blank (message s) = false -> isLoading s = false ->
  let sending := handleSubmit now stamp s in
  let text := responseText r in
  let k := length (intervals s) in
  let j := length (timeouts s) in
  let s1 := react (Fulfilled r now' stamp') sending in
  let am := assistantMessage now' stamp' in
  let final := {| id := id am; role := assistant; content := text;
                  timestamp := timestamp am |} in
  (intervals sending = intervals s /\ timeouts sending = timeouts s /\
   streamingContent sending = streamingContent s) /\
  (intervals s1 = intervals s ++ [typewriterEffect text] /\
   streamingContent s1 = [] /\ last (messages s1) = Some am) /\
  forall n,
    let sn := run (replicate n (Tick k)) s1 in
    streamingContent sn = take n text /\
    streamingContent sn `prefix_of` text /\
    shown sn am = take n text /\
    (n < length text ->
     length (streamingContent (react (Tick k) sn)) =
       S (length (streamingContent sn))) /\
    (length text <= n -> streamingContent sn = text) /\
    last (messages (react (Fire j) sn)) = Some final /\
    streamingContent (react (Fire j) sn) = [] /\
    shown (react (Fire j) sn) final = text.
Proof.
  intros Hb Hl sending text k j s1 am final.
  assert (sending =
            post
              (Api.sendMessage
                 (project <$> (messages s ++ [userMessage now stamp s]))
                 (Some (lit "default")))
              (setIsLoading true
                 (setMessage []
                    (setMessages
                       (fun prev => prev ++ [userMessage now stamp s]) s))))
    as Hsend by (by apply handleSubmit_accepted).
  assert (s1 = handleSubmit_fulfilled r now' stamp' sending) as Hs1
    by (unfold s1; by rewrite Hsend).
  assert (intervals sending = intervals s) as Hi by (by rewrite Hsend).
  assert (timeouts sending = timeouts s) as Ht by (by rewrite Hsend).
  destruct (fulfilled_registers r now' stamp' sending)
    as (Fi & Ft & Fm & Fs & _).
  rewrite <- Hs1 in Fi, Ft, Fm, Fs. fold text in Fi, Ft.
  rewrite Hi in Fi. rewrite Ht in Ft.
  split; [by rewrite Hsend|].
  split; [split; [done|split; [done|by rewrite Fm, last_snoc]]|].
  intros n sn.
  assert (intervals s1 !! k = Some (typewriterEffect text)) as Hk
    by (rewrite Fi; apply lookup_snoc).
  assert (forall m, run (replicate m (Tick k)) s1 =
            revealed k (ticks m (typewriterEffect text)).1 (take m text) s1)
    as Hrun by (intros m; by apply reveal_after).
  assert (streamingContent sn = take n text) as Hsn
    by (unfold sn; by rewrite Hrun).
  split; [done|]. split; [rewrite Hsn; apply prefix_take|].
  split; [by rewrite shown_placeholder|].
  split.
  { intros Hn.
    assert (react (Tick k) sn = run (replicate (S n) (Tick k)) s1) as ->
      by (by rewrite replicate_S_end, run_app).
    rewrite Hrun, Hsn. simpl. rewrite !length_take. lia. }
  split; [intros Hn; rewrite Hsn; by apply take_ge|].
  assert (exists t, timeouts sn !! j = Some t /\ to_fired t = false /\
                    to_id t = id am /\ to_text t = text)
    as (t & Htj & Hf & Hid & Htx).
  { exists {| to_id := toString (now' + 1); to_text := text;
                to_delay := (Z.of_nat (length text) * 30 + 100)%Z;
                to_fired := false |}.
    split; [|done].
    unfold sn. rewrite Hrun. simpl. rewrite Ft. apply lookup_snoc. }
  assert (last (messages sn) = Some am) as Hlast
    by (unfold sn; rewrite Hrun; simpl; by rewrite Fm, last_snoc).
  assert (react (Fire j) sn =
            timeout_body t
              (set_timeouts
                 (<[j := {| to_id := to_id t; to_text := to_text t;
                            to_delay := to_delay t; to_fired := true |}]>
                    (timeouts sn)) sn)) as ->
    by (simpl; unfold fire_timeout; by rewrite Htj, Hf).
  split.
  { rewrite (timeout_body_last t _ am) by done. by rewrite Htx. }
  split; [done|].
  unfold shown. simpl. by rewrite andb_false_r.
Qed.

Lemma reveal_is_cosmetic_witness :
  let r := {| r_message := Some (lit "yo"); r_response := None |} in
  let s1 := react (Fulfilled r 1900 1900) Scenario.sending_hi in
  streamingContent (run [Tick 0] s1) = lit "y" /\
  streamingContent (run [Tick 0; Tick 0] s1) = lit "yo" /\
  content <$> messages (react (Fire 0) (run [Tick 0; Tick 0] s1))
    = [lit "hi"; lit "yo"].
Proof.
  intros r s1.
  destruct (reveal_is_cosmetic Scenario.typed_hi 1700 1700 r 1900 1900)
    as (_ & _ & H); [reflexivity | reflexivity |].
  destruct (H 1) as (H1 & _). destruct (H 2) as (H2 & _).
  split; [exact H1|]. split; [exact H2|]. reflexivity.
Defined.

End RevealClaims.

(** ** The API layer *)

Module ApiClaims.
Import Chat.

Lemma fire_interval_sent k s : sent (fire_interval k s) = sent s.
Proof.
  unfold fire_interval. destruct (intervals s !! k) as [iv|]; [|done].
  destruct (iv_cleared iv); [done|].
  by destruct (tick iv) as [iv' [c|]].
Qed.

Lemma fire_timeout_sent k s : sent (fire_timeout k s) = sent s.
Proof.
  unfold fire_timeout. destruct (timeouts s !! k) as [t|]; [|done].
  by destruct (to_fired t).
Qed.

Lemma react_sent e s :
  sent (react e s) = sent s \/
  exists msgs,
    sent (react e s) = sent s ++ [Api.sendMessage msgs (Some (lit "default"))].
Proof.
  destruct e as [v|now stamp|q|r now stamp| |k|k]; simpl.
  - left. by destruct (input_disabled s).
  - unfold handleSubmit. destruct (_ || _); [by left|]. right. by eexists.
  - left. by destruct (quick_disabled s).
  - left. by destruct (pending s).
  - left. by destruct (pending s).
  - left. apply fire_interval_sent.
  - left. apply fire_timeout_sent.
Qed.

Lemma run_view_requests es : forall s,
  Forall view_request (sent s) -> Forall view_request (sent (run es s)).
Proof.
  induction es as [|e es IH]; intros s H; [done|].
  rewrite Typewriter.run_cons. apply IH.
  destruct (react_sent e s) as [-> | [msgs ->]]; [done|].
  apply Forall_app. split; [done|]. by repeat constructor.
Qed.

(** C6, as stated, fails: [api.chat] called without a persona sends no
    [persona_id] at all, not "default". *)
Lemma api_chat_without_persona :
  Api.persona_id (Api.chat (lit "hello") None) <> Some (lit "default").
Proof. discriminate. Qed.

(** C6, amended.  Both [api.chat] and [chatAPI.sendMessage] build a
    request with temperature 0.7, max_tokens 1000 and use_context true.
    [chatAPI.sendMessage] sends persona_id "default" when no persona is
    passed and the given one otherwise; [api.chat] forwards its caller's
    persona as it is, so the field is missing when none is supplied.
    Every request the chat view sends, whatever the events, has the fixed
    parameters and persona_id "default". *)
Theorem chat_request_parameters msg persona msgs p es :
  fixed_parameters (Api.chat msg persona) /\
  fixed_parameters (Api.sendMessage msgs persona) /\
  Api.persona_id (Api.sendMessage msgs None) = Some (lit "default") /\
  Api.persona_id (Api.sendMessage msgs (Some p)) = Some p /\
  Api.persona_id (Api.chat msg persona) = persona /\
  Api.persona_id (Api.chat msg None) = None /\
  Forall view_request (sent (run es init)).
Proof.
  repeat split; try done. apply run_view_requests. constructor.
Qed.

End ApiClaims.

(** ** The ingestion view *)

Module IngestionClaims.
Import Ingestion Scenario.

Lemma handleIngest_text p s : text (handleIngest p s) = text s.
Proof. unfold handleIngest. by destruct (negb _). Qed.

Lemma react_untouched p e s :
  touches_text e = false -> text (react p e s) = text s.
Proof.
  destruct e; try discriminate; intros _; simpl.
  - destruct (ingest_disabled s); [done|]. apply handleIngest_text.
  - by destruct (pending s).
Qed.

Lemma run_untouched p es : forall s,
  Forall (fun e => touches_text e = false) es -> text (run p es s) = text s.
Proof.
  induction es as [|e es IH]; intros s H; [done|].
  apply Forall_cons in H as [He Hes].
  change (run p (e :: es) s) with (run p es (react p e s)).
  rewrite IH by done. by apply react_untouched.
Qed.

(** C2, as stated, fails: a successful ingestion empties the text. *)
Lemma successful_ingest_clears_text :
  text (react (lit "default") (Fulfilled None)
          (react (lit "default") ClickIngest typed_abc))
    <> text typed_abc.
Proof. vm_compute. discriminate. Qed.

(** C2, amended.  The text cell is emptied by the X and Clear Text
    buttons and by the continuation of a successful ingestion; starting a
    submit and a failed submit leave it as it is, and so does any run of
    events without an edit, a clear click or a successful response. *)
Theorem text_cleared_by_clear_or_success p s data detail es :
  text (handleIngest p s) = text s /\
  text (handleIngest_rejected detail (handleIngest p s)) = text s /\
  text (react p (Rejected detail) s) = text s /\
  text (handleIngest_fulfilled data s) = [] /\
  (pending s = true -> text (react p (Fulfilled data) s) = []) /\
  (text s <> [] -> isProcessing s = false ->
   text (react p ClickX s) = [] /\ text (react p ClickClear s) = []) /\
  (Forall (fun e => touches_text e = false) es ->
   text (run p es s) = text s).
Proof.
  split; [apply handleIngest_text|].
  split; [simpl; apply handleIngest_text|].
  split; [by apply react_untouched|].
  split; [done|].
  split; [by intros Hp; simpl; rewrite Hp|].
  split; [|apply run_untouched].
  intros Ht Hp. simpl.
  unfold x_button_rendered, x_button_disabled, clear_disabled.
  rewrite Hp. by destruct (text s).
Qed.

End IngestionClaims.

(** ** The ingestion endpoint *)

Module ServerClaims.
Import Server Scenario.











(** C5.  Server side: an empty or white-space-only text makes the
    ingestion fail with ValidationError, the table being left as it was.
    Client side: [handleIngest] on such a text only shows the error
    toast: no request is sent and the cells of the view keep their
    values; the Ingest Data button is disabled, so a click does nothing
    at all. *)
Theorem blank_text_is_rejected {F J} size embed writable new_id reply now
    (req : Api.IngestBody J) (table : list (EmbeddingChunk F J))
    (p : JsString) (s : Ingestion.State) :
  blank (Api.text req) = true -> blank (Ingestion.text s) = true ->
  ingest size embed writable new_id reply now req table
    = (inl ValidationError, table) /\
  Ingestion.handleIngest p s =
    Ingestion.toast (ToastError (lit "Please enter some text to ingest")) s /\
  Ingestion.sent (Ingestion.handleIngest p s) = Ingestion.sent s /\
  Ingestion.pending (Ingestion.handleIngest p s) = Ingestion.pending s /\
  Ingestion.text (Ingestion.handleIngest p s) = Ingestion.text s /\
  Ingestion.isProcessing (Ingestion.handleIngest p s)
    = Ingestion.isProcessing s /\
  Ingestion.result (Ingestion.handleIngest p s) = Ingestion.result s /\
  Ingestion.react p Ingestion.ClickIngest s = s.
Proof.
  intros Hr Hs.
  assert (Ingestion.handleIngest p s =
            Ingestion.toast
              (ToastError (lit "Please enter some text to ingest")) s) as E.
  { unfold Ingestion.handleIngest. by rewrite JsFacts.falsy_trim_blank, Hs. }
  split; [unfold ingest; by rewrite Hr|].
  rewrite E. repeat split; try done.
  simpl. unfold Ingestion.ingest_disabled.
  by rewrite JsFacts.falsy_trim_blank, Hs, orb_true_r.
Qed.

Lemma blank_text_is_rejected_witness :
  ingest 1000 constant_embed (fun _ => true) row_id chunks_reply 0
    (Api.ingestText (lit "  ") None (None : option Empty_set)) []
    = (inl ValidationError, []) /\
  Ingestion.sent
    (Ingestion.handleIngest (lit "default") Scenario.typed_spaces)
    = [].
Proof.
  destruct (blank_text_is_rejected 1000 constant_embed (fun _ => true)
              row_id chunks_reply 0
              (Api.ingestText (lit "  ") None (None : option Empty_set)) []
              (lit "default") Scenario.typed_spaces)
    as (H1 & _ & H3 & _); [reflexivity | reflexivity |].
  exact (conj H1 H3).
Defined.

End ServerClaims.

(** * Further properties of the code *)

(** ** Trimming *)

Module TrimFacts.

Lemma trimStart_split s :
  exists pre, s = pre ++ trimStart s /\ blank pre = true.
Proof.
  induction s as [|c s (pre & E & Hpre)]; [by exists []|].
  simpl. destruct (is_ws c) eqn:Hc.
  - exists (c :: pre). split; [by rewrite E at 1|]. simpl. by rewrite Hc.
  - by exists [].
Qed.

Lemma trimStart_head s c r : trimStart s = c :: r -> is_ws c = false.
Proof.
  intros E. destruct (JsFacts.trimStart_blank_or_kept s)
    as [E'|(c' & r' & E' & Hc)]; congruence.
Qed.

Lemma trimStart_kept c r : is_ws c = false -> trimStart (c :: r) = c :: r.
Proof. intros H. simpl. by rewrite H. Qed.

Lemma trimStart_snoc l c :
  is_ws c = false -> trimStart (l ++ [c]) = trimStart l ++ [c].
Proof.
  intros Hc. induction l as [|a l IH]; simpl; [by rewrite Hc|].
  by destruct (is_ws a).
Qed.

Lemma trimEnd_split s :
  exists post, s = trimEnd s ++ post /\ blank post = true.
Proof.
  destruct (trimStart_split (reverse s)) as (pre & E & Hpre).
  exists (reverse pre). split; [|by rewrite JsFacts.blank_reverse].
  unfold trimEnd. rewrite <- reverse_app, <- E. by rewrite reverse_involutive.
Qed.

(** A string is white space, then its trimmed form, then white space. *)
Lemma trim_split s :
  exists pre post,
    s = pre ++ trim s ++ post /\ blank pre = true /\ blank post = true.
Proof.
  destruct (trimStart_split s) as (pre & E & Hpre).
  destruct (trimEnd_split (trimStart s)) as (post & E' & Hpost).
  exists pre, post. split; [|done]. unfold trim. by rewrite <- E'.
Qed.

Lemma trim_cons s c r :
  trimStart s = c :: r -> trim s = c :: trimEnd r.
Proof.
  intros E. pose proof (trimStart_head s c r E) as Hc.
  unfold trim, trimEnd. rewrite E, reverse_cons, trimStart_snoc by done.
  by rewrite reverse_app.
Qed.

Lemma trim_head s c r : trim s = c :: r -> is_ws c = false.
Proof.
  intros E. destruct (trimStart s) as [|c' r'] eqn:Es.
  - unfold trim in E. by rewrite Es in E.
  - rewrite (trim_cons s c' r' Es) in E. injection E as -> _.
    by eapply trimStart_head.
Qed.

Lemma trim_last s c : last (trim s) = Some c -> is_ws c = false.
Proof.
  unfold trim, trimEnd. intros E.
  destruct (trimStart (reverse (trimStart s))) as [|c' r'] eqn:Es;
    [done|].
  rewrite reverse_cons, last_snoc in E. injection E as <-.
  by eapply trimStart_head.
Qed.

Lemma trim_idemp s : trim (trim s) = trim s.
Proof.
  destruct (trim s) as [|c q] eqn:E; [done|].
  pose proof (trim_head s c q E) as Hc.
  assert (exists c' r', reverse (c :: q) = c' :: r' /\ is_ws c' = false)
    as (c' & r' & Er & Hc').
  { destruct (reverse (c :: q)) as [|c' r'] eqn:Er.
    - apply (f_equal reverse) in Er. rewrite reverse_involutive in Er.
      discriminate.
    - exists c', r'. split; [done|]. apply (trim_last s).
      rewrite E. apply (f_equal reverse) in Er.
      rewrite reverse_involutive, reverse_cons in Er.
      by rewrite Er, last_snoc. }
  unfold trim at 1, trimEnd. rewrite trimStart_kept by done.
  rewrite Er, trimStart_kept by done.
  by rewrite <- Er, reverse_involutive.
Qed.

Lemma trim_length s : length (trim s) <= length s.
Proof.
  destruct (trim_split s) as (pre & post & E & _).
  rewrite E at 2. rewrite !length_app. lia.
Qed.

Lemma blank_trim s : blank (trim s) = blank s.
Proof.
  destruct (blank s) eqn:E.
  - apply JsFacts.trim_nil_blank in E. by rewrite E.
  - destruct (trim s) as [|c r] eqn:T.
    + apply JsFacts.trim_nil_blank in T. congruence.
    + simpl. by rewrite (trim_head s c r T).
Qed.

End TrimFacts.

(** ** The chat view, over whole runs *)

Module ChatRuns.
Import Chat Typewriter ChatFacts.

Lemma fire_interval_frame k s :
  message (fire_interval k s) = message s /\
  messages (fire_interval k s) = messages s /\
  isLoading (fire_interval k s) = isLoading s /\
  timeouts (fire_interval k s) = timeouts s /\
  pending (fire_interval k s) = pending s /\
  sent (fire_interval k s) = sent s /\
  toasts (fire_interval k s) = toasts s /\
  length (intervals (fire_interval k s)) = length (intervals s).
Proof.
  unfold fire_interval. destruct (intervals s !! k) as [iv|]; [|done].
  destruct (iv_cleared iv); [done|].
  destruct (tick iv) as [iv' [c|]]; simpl; by rewrite length_insert.
Qed.

Lemma fire_timeout_messages k s :
  messages (fire_timeout k s) = messages s \/
  exists t, timeouts s !! k = Some t /\ to_fired t = false /\
            messages (fire_timeout k s) = fill t <$> messages s.
Proof.
  unfold fire_timeout. destruct (timeouts s !! k) as [t|]; [|by left].
  destruct (to_fired t) eqn:E; [by left|]. right. by exists t.
Qed.

Lemma fire_timeout_frame k s :
  message (fire_timeout k s) = message s /\
  isLoading (fire_timeout k s) = isLoading s /\
  intervals (fire_timeout k s) = intervals s /\
  pending (fire_timeout k s) = pending s /\
  sent (fire_timeout k s) = sent s /\
  toasts (fire_timeout k s) = toasts s /\
  length (timeouts (fire_timeout k s)) = length (timeouts s).
Proof.
  unfold fire_timeout. destruct (timeouts s !! k) as [t|]; [|done].
  destruct (to_fired t); [done|]. simpl. by rewrite length_insert.
Qed.

Lemma frame_fill t m : frame (fill t m) = frame m.
Proof. unfold fill. by destruct (eqb _ _). Qed.

Lemma frames_fill t (l : list Message) :
  frame <$> (fill t <$> l) = frame <$> l.
Proof.
  rewrite <- list_fmap_compose. apply list_fmap_ext.
  intros i m _. apply frame_fill.
Qed.

Lemma roles_of_frames (l : list Message) :
  role <$> l = (fun f => f.1.2) <$> (frame <$> l).
Proof. by rewrite <- list_fmap_compose. Qed.

Lemma roles_fill t (l : list Message) :
  role <$> (fill t <$> l) = role <$> l.
Proof. by rewrite !roles_of_frames, frames_fill. Qed.

Lemma fire_timeout_frames k s :
  frame <$> messages (fire_timeout k s) = frame <$> messages s.
Proof.
  destruct (fire_timeout_messages k s) as [-> | (t & _ & _ & ->)];
    [done | apply frames_fill].
Qed.

Lemma count_role_snoc r l m :
  count_role r (l ++ [m]) =
    count_role r l + (if decide (role m = r) then 1 else 0).
Proof.
  unfold count_role. rewrite fmap_app, filter_app, length_app. simpl.
  f_equal. rewrite filter_cons, filter_nil. by destruct (decide _).
Qed.

Lemma count_role_frames r (l l' : list Message) :
  frame <$> l = frame <$> l' -> count_role r l = count_role r l'.
Proof. intros H. unfold count_role. by rewrite !roles_of_frames, H. Qed.

(** Every event keeps the invariant. *)
Lemma react_consistent e s : consistent s -> consistent (react e s).
Proof.
  intros Hs. pose proof Hs as (H1 & H2 & H3 & H4 & H5 & H6).
  destruct e as [v|now stamp|q|r now stamp| |k|k]; cbn [react].
  - unfold input_disabled. destruct (isLoading s) eqn:El; [exact Hs|].
    repeat split; simpl; try done; intros; congruence.
  - destruct (blank (message s)) eqn:Eb;
      [by rewrite handleSubmit_ignored by (by right)|].
    destruct (isLoading s) eqn:El;
      [by rewrite handleSubmit_ignored by (by left)|].
    rewrite handleSubmit_accepted by done.
    rewrite <- H1 in H5.
    repeat split; simpl; rewrite ?count_role_snoc, ?length_app; simpl;
      try done; try lia.
  - unfold quick_disabled. destruct (isLoading s) eqn:El; [exact Hs|].
    repeat split; simpl; try done; intros; congruence.
  - destruct (pending s) eqn:Ep; [|exact Hs].
    repeat split; simpl; rewrite ?count_role_snoc, ?length_app; simpl;
      try done; try lia.
  - destruct (pending s) eqn:Ep; [|exact Hs].
    repeat split; simpl; try done; try lia.
  - destruct (fire_interval_frame k s)
      as (F1 & F2 & F3 & F4 & F5 & F6 & _ & F8).
    unfold consistent. by rewrite F1, F2, F3, F4, F5, F6, F8.
  - destruct (fire_timeout_frame k s) as (F1 & F2 & F3 & F4 & F5 & _ & F7).
    pose proof (fire_timeout_frames k s) as Ff.
    unfold consistent.
    rewrite F1, F2, F3, F4, F5, F7.
    by rewrite !(count_role_frames _ _ _ Ff).
Qed.

Lemma run_consistent es : forall s, consistent s -> consistent (run es s).
Proof.
  induction es as [|e es IH]; intros s H; [done|].
  rewrite run_cons. by apply IH, react_consistent.
Qed.

Lemma init_consistent : consistent init.
Proof. by repeat split. Qed.

End ChatRuns.

Module ChatExtras.
Import Chat Typewriter ChatFacts ChatRuns.

Lemma consistent_nonempty s :
  consistent s -> isLoading s = true -> 0 < length (messages s).
Proof.
  intros (H1 & H2 & _ & _ & H5 & _) Hl. rewrite <- H1, Hl in H5.
  assert (0 < count_role user (messages s)) as Hpos by lia.
  unfold count_role in Hpos.
  pose proof (length_filter (fun x => x = user) (role <$> messages s)) as Hf.
  rewrite length_fmap in Hf. lia.
Qed.

(** The loading flag tracks the request in flight.  In every state
    reached from the initial one, [isLoading] holds exactly when a request
    is pending, and while it holds the message panel is rendered, so the
    loading dots nested in it are visible, the input is empty and the Send
    button is disabled. *)
Theorem loading_tracks_request es :
  let s := run es init in
  isLoading s = pending s /\
  (isLoading s = true ->
   dots_rendered s = true /\ message s = [] /\ send_disabled s = true).
Proof.
  intros s. pose proof (run_consistent es init init_consistent) as Hc.
  fold s in Hc. split; [apply Hc|]. intros Hl.
  pose proof (consistent_nonempty s Hc Hl) as Hn.
  destruct Hc as (_ & _ & _ & _ & _ & H6).
  unfold dots_rendered, panel_rendered, send_disabled.
  rewrite Hl, bool_decide_eq_true_2 by done.
  split; [done|]. split; [by apply H6|apply orb_true_r].
Qed.

(** Bookkeeping of a conversation.  In every state reached from the
    initial one there are as many user messages as requests sent, as many
    assistant messages as reveal intervals and as timeouts, and never
    more assistant messages than user messages (strictly fewer while a
    request is pending). *)
Theorem conversation_bookkeeping es :
  let s := run es init in
  count_role user (messages s) = length (sent s) /\
  count_role assistant (messages s) = length (intervals s) /\
  length (intervals s) = length (timeouts s) /\
  count_role assistant (messages s) + (if pending s then 1 else 0)
    <= count_role user (messages s).
Proof.
  intros s.
  destruct (run_consistent es init init_consistent)
    as (_ & H2 & H3 & H4 & H5 & _).
  fold s in H2, H3, H4, H5. repeat split; try done. lia.
Qed.

Lemma react_frames e s :
  exists tail,
    frame <$> messages (react e s) = (frame <$> messages s) ++ tail.
Proof.
  destruct e as [v|now stamp|q|r now stamp| |k|k]; cbn [react].
  - exists []. rewrite app_nil_r. by destruct (input_disabled s).
  - unfold handleSubmit. destruct (_ || _).
    + exists []. by rewrite app_nil_r.
    + eexists. simpl. by rewrite fmap_app.
  - exists []. rewrite app_nil_r. by destruct (quick_disabled s).
  - destruct (pending s).
    + eexists. simpl. by rewrite fmap_app.
    + exists []. by rewrite app_nil_r.
  - exists []. rewrite app_nil_r. by destruct (pending s).
  - exists []. rewrite app_nil_r.
    by destruct (fire_interval_frame k s) as (_ & -> & _).
  - exists []. rewrite app_nil_r. apply fire_timeout_frames.
Qed.

(** The conversation only grows.  Whatever the events, from any state,
    the messages present keep their position, id, role and timestamp: no
    event removes, reorders or re-attributes a message. *)
Theorem conversation_only_grows es : forall s,
  (frame <$> messages s) `prefix_of` (frame <$> messages (run es s)).
Proof.
  induction es as [|e es IH]; intros s; [done|].
  rewrite run_cons. etrans; [|apply IH].
  destruct (react_frames e s) as [tail ->]. by apply prefix_app_r.
Qed.

(** When the timeout of a turn fires, the list keeps its length, and a
    message whose id differs from the id stored in the timeout is left
    exactly as it was; a message whose id is that id, whatever its role,
    gets the response text as its content. *)
Theorem timeout_rewrites_by_id k s t i m :
  timeouts s !! k = Some t -> to_fired t = false ->
  messages s !! i = Some m ->
  length (messages (react (Fire k) s)) = length (messages s) /\
  (id m <> to_id t -> messages (react (Fire k) s) !! i = Some m) /\
  (id m = to_id t ->
   messages (react (Fire k) s) !! i =
     Some {| id := id m; role := role m; content := to_text t;
             timestamp := timestamp m |}).
Proof.
  intros Ht Hf Hm. cbn [react]. unfold fire_timeout. rewrite Ht, Hf.
  simpl. rewrite length_fmap, list_lookup_fmap, Hm. simpl.
  split; [done|]. unfold eqb. split; intros H.
  - by rewrite bool_decide_eq_false_2.
  - by rewrite bool_decide_eq_true_2.
Qed.

Lemma timeout_rewrites_by_id_witness :
  let s := react (Fulfilled {| r_message := Some (lit "yo");
                               r_response := None |} 1900 1900)
             Scenario.sending_hi in
  messages (react (Fire 0) s) !! 0 =
    Some {| id := lit "1700"; role := user; content := lit "hi";
            timestamp := 1700 |}.
Proof.
  intros s.
  destruct (timeout_rewrites_by_id 0 s
              {| to_id := lit "1901"; to_text := lit "yo";
                 to_delay := 160; to_fired := false |} 0
              {| id := lit "1700"; role := user; content := lit "hi";
                 timestamp := 1700 |})
    as (_ & H & _); [reflexivity | reflexivity | reflexivity |].
  apply H. discriminate.
Defined.

Lemma run_ticks_frame es : forall s,
  Forall (fun e => is_tick e = true) es ->
  message (run es s) = message s /\
  messages (run es s) = messages s /\
  isLoading (run es s) = isLoading s /\
  timeouts (run es s) = timeouts s /\
  pending (run es s) = pending s /\
  sent (run es s) = sent s.
Proof.
  induction es as [|e es IH]; intros s H; [done|].
  apply Forall_cons in H as [He Hes]. rewrite run_cons.
  destruct e; try discriminate. cbn [react].
  destruct (IH (fire_interval k s) Hes) as (-> & -> & -> & -> & -> & ->).
  destruct (fire_interval_frame k s) as (-> & -> & -> & -> & -> & -> & _).
  done.
Qed.

End ChatExtras.

Module ChatTurns.
Import Chat Typewriter ChatFacts ChatRuns ChatExtras.

(** The state in which a follow-up [v] has been typed after the answer
    [r] arrived and some interval firings [es] went by. *)
Lemma typed_after_answer s r now stamp v es :
  pending s = true -> Forall (fun e => is_tick e = true) es ->
  let typed := react (Change v) (run es (react (Fulfilled r now stamp) s)) in
  message typed = v /\
  messages typed = messages s ++ [assistantMessage now stamp] /\
  isLoading typed = false /\
  sent typed = sent s /\
  timeouts typed !! length (timeouts s) =
    Some {| to_id := toString (now + 1); to_text := responseText r;
            to_delay := (Z.of_nat (length (responseText r)) * 30 + 100)%Z;
            to_fired := false |}.
Proof.
  intros Hp Hes typed. unfold typed. cbn [react]. rewrite Hp.
  destruct (run_ticks_frame es (handleSubmit_fulfilled r now stamp s) Hes)
    as (Em & Ems & El & Et & _ & Es).
  unfold input_disabled. rewrite El. simpl.
  rewrite Ems, Et, Es. simpl. repeat split; try done.
  apply RevealClaims.lookup_snoc.
Qed.

(** Ids are clock readings: the assistant message of a turn gets
    [Date.now() + 1], a user message [Date.now()].  When the next submit
    happens at exactly that clock value, the two ids are equal, and the
    timeout of the answered turn then replaces the content of the new
    user message by the response text. *)
Theorem id_collision_overwrites_user_message s r now stamp v stamp2 es :
  pending s = true -> blank v = false ->
  Forall (fun e => is_tick e = true) es ->
  let typed := react (Change v) (run es (react (Fulfilled r now stamp) s)) in
  let submitted := react (Submit (now + 1) stamp2) typed in
  last (messages submitted) =
    Some {| id := toString (now + 1); role := user; content := trim v;
            timestamp := stamp2 |} /\
  last (messages (react (Fire (length (timeouts s))) submitted)) =
    Some {| id := toString (now + 1); role := user;
            content := responseText r; timestamp := stamp2 |}.
Proof.
  intros Hp Hb Hes typed submitted.
  destruct (typed_after_answer s r now stamp v es Hp Hes)
    as (Em & Ems & El & Es & Et).
  fold typed in Em, Ems, El, Es, Et.
  assert (submitted =
            post
              (Api.sendMessage
                 (project <$>
                    (messages typed ++ [userMessage (now + 1) stamp2 typed]))
                 (Some (lit "default")))
              (setIsLoading true
                 (setMessage []
                    (setMessages
                       (fun prev =>
                          prev ++ [userMessage (now + 1) stamp2 typed])
                       typed)))) as E.
  { unfold submitted. cbn [react]. apply handleSubmit_accepted; [|done].
    by rewrite Em. }
  assert (last (messages submitted) =
            Some {| id := toString (now + 1); role := user;
                    content := trim v; timestamp := stamp2 |}) as Hlast.
  { rewrite E. simpl. rewrite last_snoc. unfold userMessage. by rewrite Em. }
  split; [exact Hlast|].
  cbn [react]. unfold fire_timeout.
  assert (timeouts submitted = timeouts typed) as -> by (by rewrite E).
  rewrite Et. cbn [to_fired].
  etrans; [eapply timeout_body_last; [exact Hlast | reflexivity]|].
  reflexivity.
Qed.

Lemma id_collision_overwrites_user_message_witness :
  let r := {| r_message := Some (lit "yo"); r_response := None |} in
  let typed :=
    react (Change (lit "ok")) (react (Fulfilled r 1900 1900)
                                 Scenario.sending_hi) in
  last (messages (react (Fire 0) (react (Submit 1901 1901) typed)))
    = Some {| id := lit "1901"; role := user; content := lit "yo";
              timestamp := 1901 |}.
Proof.
  intros r typed.
  destruct (id_collision_overwrites_user_message Scenario.sending_hi r
              1900 1900 (lit "ok") 1901 [])
    as [_ H]; [reflexivity | reflexivity | constructor |].
  exact H.
Defined.

(** The content of a user message is the trimmed input: it is never
    empty, has no white space at either end, is not longer than what was
    typed, and trimming it again changes nothing; the same string is the
    content of the last turn of the request. *)
Theorem user_message_is_trimmed s now stamp :
  blank (message s) = false -> isLoading s = false ->
  let um := userMessage now stamp s in
  content um <> [] /\
  (forall c r, content um = c :: r -> is_ws c = false) /\
  (forall c, last (content um) = Some c -> is_ws c = false) /\
  trim (content um) = content um /\
  length (content um) <= length (message s) /\
  (exists body,
     last (sent (handleSubmit now stamp s)) = Some body /\
     (Api.messages body ≫= last) =
       Some {| Api.role := lit "user"; Api.content := content um |}).
Proof.
  intros Hb Hl um. unfold um, userMessage. cbn [content].
  split.
  { intros E. apply JsFacts.trim_nil_blank in E. congruence. }
  split; [apply TrimFacts.trim_head|].
  split; [apply TrimFacts.trim_last|].
  split; [apply TrimFacts.trim_idemp|].
  split; [apply TrimFacts.trim_length|].
  rewrite handleSubmit_accepted by done. eexists.
  split; [apply last_snoc|].
  cbn [Api.messages Api.sendMessage mbind option_bind].
  rewrite fmap_app. cbn [fmap list_fmap]. by rewrite last_snoc.
Qed.

Lemma user_message_is_trimmed_witness :
  content (userMessage 5 5 (setMessage (lit "  hi there ") init))
    <> [] /\
  length (content (userMessage 5 5 (setMessage (lit "  hi there ") init)))
    <= 11.
Proof.
  destruct (user_message_is_trimmed (setMessage (lit "  hi there ") init) 5 5)
    as (H1 & _ & _ & _ & H5 & _); [reflexivity | reflexivity |].
  exact (conj H1 H5).
Defined.

End ChatTurns.

Module ChatFollowUp.
Import Chat Typewriter ChatFacts ChatRuns ChatExtras ChatTurns.

(** A follow-up sent while the timeout of the previous answer has not
    fired re-sends that answer as an assistant turn with empty content;
    sent after the timeout has fired, the same follow-up carries the
    whole response text in that turn. *)
Theorem follow_up_before_timeout s r now stamp v now2 stamp2 es :
  pending s = true -> blank v = false ->
  Forall (fun e => is_tick e = true) es ->
  let typed := react (Change v) (run es (react (Fulfilled r now stamp) s)) in
  let fired := react (Fire (length (timeouts s))) typed in
  (exists history body,
     last (sent (react (Submit now2 stamp2) typed)) = Some body /\
     length history = length (messages s) /\
     Api.messages body =
       Some (history ++
               [{| Api.role := lit "assistant"; Api.content := [] |};
                {| Api.role := lit "user"; Api.content := trim v |}])) /\
  (exists history body,
     last (sent (react (Submit now2 stamp2) fired)) = Some body /\
     length history = length (messages s) /\
     Api.messages body =
       Some (history ++
               [{| Api.role := lit "assistant";
                   Api.content := responseText r |};
                {| Api.role := lit "user"; Api.content := trim v |}])).
Proof.
  intros Hp Hb Hes typed fired.
  destruct (typed_after_answer s r now stamp v es Hp Hes)
    as (Em & Ems & El & Es & Et).
  fold typed in Em, Ems, El, Es, Et. split.
  - exists (project <$> messages s). eexists. cbn [react].
    rewrite handleSubmit_accepted by (by rewrite ?Em).
    split; [apply last_snoc|]. split; [apply length_fmap|].
    cbn [Api.messages Api.sendMessage]. f_equal.
    rewrite Ems, <- (assoc_L (++)), fmap_app. f_equal.
    unfold userMessage. by rewrite Em.
  - set (t := {| to_id := toString (now + 1); to_text := responseText r;
                 to_delay :=
                   (Z.of_nat (length (responseText r)) * 30 + 100)%Z;
                 to_fired := false |}) in Et.
    assert (message fired = v /\ isLoading fired = false /\
            messages fired = fill t <$> messages typed) as (Fm & Fl & Fms).
    { unfold fired. cbn [react]. unfold fire_timeout. rewrite Et.
      cbn [to_fired]. by repeat split. }
    exists (project <$> (fill t <$> messages s)). eexists. cbn [react].
    rewrite handleSubmit_accepted by (by rewrite ?Fm).
    split; [apply last_snoc|]. split; [by rewrite !length_fmap|].
    cbn [Api.messages Api.sendMessage]. f_equal.
    rewrite Fms, Ems, !fmap_app, <- (assoc_L (++)). f_equal.
    cbn [fmap list_fmap app]. unfold userMessage. rewrite Fm.
    f_equal. unfold fill. cbn [id assistantMessage to_id t].
    by rewrite eqb_refl.
Qed.

Lemma follow_up_before_timeout_witness :
  let r := {| r_message := Some (lit "yo"); r_response := None |} in
  let typed :=
    react (Change (lit "ok")) (react (Fulfilled r 1900 1900)
                                 Scenario.sending_hi) in
  exists history body,
    last (sent (react (Submit 2000 2000) typed)) = Some body /\
    length history = 1 /\
    Api.messages body =
      Some (history ++
              [{| Api.role := lit "assistant"; Api.content := [] |};
               {| Api.role := lit "user"; Api.content := lit "ok" |}]).
Proof.
  intros r typed.
  destruct (follow_up_before_timeout Scenario.sending_hi r 1900 1900
              (lit "ok") 2000 2000 [])
    as [H _]; [reflexivity | reflexivity | constructor |].
  exact H.
Defined.

(** All placeholders share one streaming buffer.  An assistant message
    still waiting for its timeout (content empty) shows, during the
    reveal of a later answer, the revealed prefix of that later answer. *)
Theorem placeholder_shows_later_reveal s r now stamp m n :
  pending s = true -> m ∈ messages s ->
  role m = assistant -> content m = [] ->
  let s1 := react (Fulfilled r now stamp) s in
  let sn := run (replicate n (Tick (length (intervals s)))) s1 in
  m ∈ messages sn /\ shown sn m = take n (responseText r).
Proof.
  intros Hp Hm Hr Hc s1 sn.
  assert (s1 = handleSubmit_fulfilled r now stamp s) as E
    by (unfold s1; cbn [react]; by rewrite Hp).
  destruct (RevealClaims.fulfilled_registers r now stamp s)
    as (Fi & _ & Fm & Fs & _).
  rewrite <- E in Fi, Fm, Fs.
  assert (sn = revealed (length (intervals s))
                 (ticks n (typewriterEffect (responseText r))).1
                 (take n (responseText r)) s1) as ->.
  { apply RevealClaims.reveal_after; [|done].
    rewrite Fi. apply RevealClaims.lookup_snoc. }
  split.
  - simpl. rewrite Fm. apply elem_of_app. by left.
  - by rewrite shown_placeholder.
Qed.

Lemma placeholder_shows_later_reveal_witness :
  let r1 := {| r_message := Some (lit "yo"); r_response := None |} in
  let r2 := {| r_message := Some (lit "bye"); r_response := None |} in
  let second :=
    react (Submit 2000 2000)
      (react (Change (lit "ok"))
         (react (Fulfilled r1 1900 1900) Scenario.sending_hi)) in
  shown (run [Tick 1; Tick 1] (react (Fulfilled r2 2100 2100) second))
    (assistantMessage 1900 1900) = lit "by".
Proof.
  intros r1 r2 second.
  destruct (placeholder_shows_later_reveal second r2 2100 2100
              (assistantMessage 1900 1900) 2)
    as [_ H]; [reflexivity | | reflexivity | reflexivity | exact H].
  apply list_elem_of_lookup. by exists 1.
Defined.

(** The timeout of a turn is registered with the delay
    [text.length * 30 + 100] ms, which is later than the nominal time,
    [8 * (text.length + 1)] ms, of the interval firing that clears the
    reveal. *)
Theorem timeout_scheduled_after_reveal r now stamp s :
  let text := responseText r in
  exists t,
    last (timeouts (handleSubmit_fulfilled r now stamp s)) = Some t /\
    to_text t = text /\ to_fired t = false /\
    to_delay t = (Z.of_nat (length text) * 30 + 100)%Z /\
    (interval_ms * (Z.of_nat (length text) + 1) < to_delay t)%Z.
Proof.
  intros text. eexists. split; [simpl; apply last_snoc|].
  repeat split. unfold interval_ms. cbn [to_delay]. fold text. lia.
Qed.

End ChatFollowUp.

Module ChatSubmit.
Import Chat Typewriter ChatFacts ChatRuns ChatExtras.

(** An event that types nothing either is an accepted submit, which
    empties the input and sends one request, or leaves both the input and
    the requests sent as they were. *)
Lemma react_not_typing e s :
  types_input e = false ->
  (message (react e s) = [] /\
   length (sent (react e s)) = S (length (sent s))) \/
  (message (react e s) = message s /\ sent (react e s) = sent s).
Proof.
  destruct e as [v|now stamp|q|r now stamp| |k|k]; try discriminate;
    intros _; cbn [react].
  - unfold handleSubmit. destruct (_ || _); [by right|]. left.
    simpl. rewrite length_app. simpl. split; [done|lia].
  - right. by destruct (pending s).
  - right. by destruct (pending s).
  - right. by destruct (fire_interval_frame k s) as (-> & _ & _ & _ & _ & -> & _).
  - right. by destruct (fire_timeout_frame k s) as (-> & _ & _ & _ & -> & _).
Qed.

Lemma empty_input_sends_nothing es : forall s,
  message s = [] -> Forall (fun e => types_input e = false) es ->
  sent (run es s) = sent s.
Proof.
  induction es as [|e es IH]; intros s Hm H; [done|].
  apply Forall_cons in H as [He Hes]. rewrite run_cons.
  assert (message (react e s) = [] /\ sent (react e s) = sent s)
    as [Hm' Hs'].
  { destruct e as [v|now stamp|q|r now stamp| |k|k]; try discriminate;
      cbn [react].
    - by rewrite handleSubmit_ignored by (right; by rewrite Hm).
    - by destruct (pending s).
    - by destruct (pending s).
    - by destruct (fire_interval_frame k s)
        as (-> & _ & _ & _ & _ & -> & _).
    - by destruct (fire_timeout_frame k s) as (-> & _ & _ & _ & -> & _). }
  by rewrite IH.
Qed.

(** One typed message gives at most one request.  From any state, over
    any run of events in which nothing is typed into the input (no edit
    and no quick action), however many submits, responses and timer
    firings it contains, at most one request is sent. *)
Theorem one_request_per_typed_message es : forall s,
  Forall (fun e => types_input e = false) es ->
  length (sent (run es s)) <= S (length (sent s)).
Proof.
  induction es as [|e es IH]; intros s H; [simpl; lia|].
  apply Forall_cons in H as [He Hes]. rewrite run_cons.
  destruct (react_not_typing e s He) as [[Hm Hs] | [Hm Hs]].
  - rewrite empty_input_sends_nothing by done. lia.
  - specialize (IH (react e s) Hes). rewrite Hs in IH. exact IH.
Qed.

Lemma one_request_per_typed_message_witness :
  length (sent (run [Submit 1 1; Submit 2 2; Rejected; Submit 3 3]
                  Scenario.typed_hi)) <= 1.
Proof.
  apply (one_request_per_typed_message
           [Submit 1 1; Submit 2 2; Rejected; Submit 3 3] Scenario.typed_hi).
  repeat constructor.
Defined.

Lemma timeout_body_messages t s :
  messages (timeout_body t s) = fill t <$> messages s.
Proof. done. Qed.

(** A complete successful turn.  From an idle view whose messages do not
    carry the id of the coming assistant message: submit, response, the
    [text.length + 1] interval firings and the timeout leave the view
    idle with the input empty, the buffer empty, the interval cleared,
    and the message list extended by the user message and by the
    assistant message holding the whole response text; every bubble then
    shows the content of its message. *)
Theorem complete_turn s now stamp r now' stamp' :
  blank (message s) = false -> isLoading s = false ->
  (forall m, m ∈ messages s -> id m <> toString (now' + 1)) ->
  toString now <> toString (now' + 1) ->
  let text := responseText r in
  let k := length (intervals s) in
  let j := length (timeouts s) in
  let final :=
    run ([Submit now stamp; Fulfilled r now' stamp']
           ++ replicate (S (length text)) (Tick k) ++ [Fire j]) s in
  messages final =
    messages s ++
      [userMessage now stamp s;
       {| id := toString (now' + 1); role := assistant; content := text;
          timestamp := stamp' |}] /\
  message final = [] /\ isLoading final = false /\
  pending final = false /\ streamingContent final = [] /\
  intervals final !! k =
    Some {| iv_text := text; iv_i := length text; iv_cleared := true |} /\
  (forall m, m ∈ messages final -> shown final m = content m).
Proof.
  intros Hb Hl Hfresh Hne text k j final.
  pose proof (handleSubmit_accepted now stamp s Hb Hl) as Hsend.
  set (sending := handleSubmit now stamp s) in *.
  set (s1 := handleSubmit_fulfilled r now' stamp' sending).
  set (n := S (length text)).
  assert (intervals s1 !! k = Some (typewriterEffect text)) as Hk.
  { unfold s1. simpl. rewrite Hsend. simpl. apply RevealClaims.lookup_snoc. }
  assert (run [Submit now stamp; Fulfilled r now' stamp'] s = s1) as E0.
  { cbn [run foldl react]. fold sending.
    assert (pending sending = true) as -> by (by rewrite Hsend). done. }
  assert (final = react (Fire j) (run (replicate n (Tick k)) s1)) as ->.
  { unfold final. by rewrite !run_app, E0. }
  rewrite (RevealClaims.reveal_after n k text s1 Hk eq_refl).
  assert (ticks n (typewriterEffect text) =
            ({| iv_text := text; iv_i := length text; iv_cleared := true |},
             prefixes text 0 n)) as Hticks.
  { unfold typewriterEffect, n. rewrite ticks_spec by lia.
    by rewrite decide_False by lia. }
  rewrite Hticks. cbn [fst].
  set (sn := revealed k _ _ s1).
  assert (timeouts sn !! j =
            Some {| to_id := toString (now' + 1); to_text := text;
                    to_delay := (Z.of_nat (length text) * 30 + 100)%Z;
                    to_fired := false |}) as Ht.
  { unfold sn, s1. simpl. rewrite Hsend. simpl.
    apply RevealClaims.lookup_snoc. }
  cbn [react]. unfold fire_timeout. rewrite Ht. cbn [to_fired].
  assert (messages sn =
            messages s ++ [userMessage now stamp s;
                           assistantMessage now' stamp']) as Hms.
  { unfold sn, s1. simpl. rewrite Hsend. simpl.
    by rewrite <- (assoc_L (++)). }
  assert (intervals sn !! k =
            Some {| iv_text := text; iv_i := length text;
                    iv_cleared := true |}) as Hiv.
  { unfold sn. simpl. apply list_lookup_insert_eq.
    by eapply lookup_lt_Some. }
  split.
  { rewrite timeout_body_messages. cbn [messages set_timeouts].
    rewrite Hms, fmap_app. f_equal.
    - rewrite <- (list_fmap_id (messages s)) at 2.
      apply list_fmap_ext. intros i m Hm. unfold fill, eqb.
      rewrite bool_decide_eq_false_2; [done|].
      apply Hfresh. by eapply list_elem_of_lookup_2.
    - cbn [fmap list_fmap]. unfold fill, eqb. cbn [id userMessage to_id].
      rewrite bool_decide_eq_false_2 by done.
      cbn [id assistantMessage].
      by rewrite bool_decide_eq_true_2. }
  split; [unfold sn, s1; simpl; by rewrite Hsend|].
  split; [done|]. split; [done|]. split; [done|].
  split; [exact Hiv|].
  intros m _. unfold shown. simpl. by rewrite andb_false_r.
Qed.

Lemma complete_turn_witness :
  messages
    (run [Submit 1700 1700;
          Fulfilled {| r_message := Some (lit "yo"); r_response := None |}
            1900 1900;
          Tick 0; Tick 0; Tick 0; Fire 0] Scenario.typed_hi)
    = [{| id := lit "1700"; role := user; content := lit "hi";
          timestamp := 1700 |};
       {| id := lit "1901"; role := assistant; content := lit "yo";
          timestamp := 1900 |}].
Proof.
  destruct (complete_turn Scenario.typed_hi 1700 1700
              {| r_message := Some (lit "yo"); r_response := None |}
              1900 1900)
    as (H & _); [reflexivity | reflexivity | | discriminate | exact H].
  intros m Hm. apply elem_of_nil in Hm. destruct Hm.
Defined.

End ChatSubmit.

(** ** The ingestion view, over whole runs *)

Module IngestionExtras.
Import Ingestion.

Lemma handleIngest_accepted p s :
  blank (text s) = false ->
  handleIngest p s =
    post (Api.ingestData (trim (text s)) (Some p))
      (setResult None (setIsProcessing true s)).
Proof.
  intros Hb. unfold handleIngest. by rewrite JsFacts.falsy_trim_blank, Hb.
Qed.

Lemma react_cases p e s :
  consistent s ->
  consistent (react p e s) /\
  (sent (react p e s) = sent s \/
   blank (text s) = false /\
   sent (react p e s) = sent s ++ [Api.ingestData (trim (text s)) (Some p)]).
Proof.
  intros Hc. destruct e; cbn [react].
  - destruct (textarea_disabled s); (split; [exact Hc | by left]).
  - destruct (_ && _); (split; [exact Hc | by left]).
  - destruct (clear_disabled s); (split; [exact Hc | by left]).
  - unfold ingest_disabled. rewrite JsFacts.falsy_trim_blank.
    destruct (isProcessing s) eqn:Ep; cbn [orb];
      [split; [exact Hc | by left]|].
    destruct (blank (text s)) eqn:Hb; [split; [exact Hc | by left]|].
    rewrite handleIngest_accepted by done. split; [done|]. by right.
  - destruct (pending s); (split; [done | by left]).
  - destruct (pending s); (split; [done | by left]).
Qed.

Lemma trimmed_request p t :
  blank t = false -> view_request p (Api.ingestData (trim t) (Some p)).
Proof.
  intros Hb. repeat split; [|apply TrimFacts.trim_idemp].
  simpl. intros E. apply JsFacts.trim_nil_blank in E. congruence.
Qed.

Lemma run_cases p es : forall s,
  consistent s -> Forall (view_request p) (sent s) ->
  consistent (run p es s) /\ Forall (view_request p) (sent (run p es s)).
Proof.
  induction es as [|e es IH]; intros s Hc Hs; [done|].
  change (run p (e :: es) s) with (run p es (react p e s)).
  destruct (react_cases p e s Hc) as [Hc' [E | [Hb E]]];
    apply IH; try done; rewrite E; [done|].
  apply Forall_app. split; [done|]. constructor; [|done].
  by apply trimmed_request.
Qed.

(** In every state the ingestion view reaches from the initial one,
    [isProcessing] holds exactly when a request is pending, and every
    request sent carries a non-empty text without white space at either
    end (trimming it changes nothing), the selected persona, and no
    metadata. *)
Theorem ingestion_requests_are_trimmed p es :
  let s := run p es init in
  isProcessing s = pending s /\
  Forall (fun b =>
            Api.text b <> [] /\ trim (Api.text b) = Api.text b /\
            Api.ingest_persona_id b = Some p /\ Api.metadata b = None)
    (sent s).
Proof.
  intros s. destruct (run_cases p es init) as [H1 H2]; [done|constructor|].
  split; [exact H1|exact H2].
Qed.

(** [handleIngest] itself does not look at [isProcessing]: called with a
    non-blank text it sends a request even while one is in flight.  What
    keeps a second request from being sent is the Ingest Data button,
    which is disabled while processing: a click then changes nothing. *)
Theorem only_the_button_guards_processing p s :
  blank (text s) = false -> isProcessing s = true ->
  sent (handleIngest p s) =
    sent s ++ [Api.ingestData (trim (text s)) (Some p)] /\
  ingest_disabled s = true /\
  react p ClickIngest s = s.
Proof.
  intros Hb Hp. rewrite handleIngest_accepted by done.
  split; [done|]. cbn [react]. unfold ingest_disabled. by rewrite Hp.
Qed.

Lemma only_the_button_guards_processing_witness :
  let s := react (lit "default") ClickIngest Scenario.typed_abc in
  length (sent (handleIngest (lit "default") s)) = 2 /\
  react (lit "default") ClickIngest s = s.
Proof.
  intros s.
  destruct (only_the_button_guards_processing (lit "default") s)
    as (H1 & _ & H3); [reflexivity | reflexivity |].
  split; [by rewrite H1|exact H3].
Defined.

(** Retry after a failure.  A failed ingestion keeps the text, so a
    second click on Ingest Data sends the same request again; the failure
    banner is removed when the retry starts, and the error toast stays. *)
Theorem retry_resends_same_request p s detail :
  blank (text s) = false -> isProcessing s = false ->
  let body := Api.ingestData (trim (text s)) (Some p) in
  let failed := run p [ClickIngest; Rejected detail] s in
  let retried := react p ClickIngest failed in
  result failed =
    Some {| success := false;
            message := or_else detail (lit "Failed to ingest data") |} /\
  text failed = text s /\ isProcessing failed = false /\
  sent retried = sent s ++ [body; body] /\
  result retried = None /\ isProcessing retried = true /\
  toasts retried =
    toasts s ++ [ToastError (or_else detail (lit "Failed to ingest data"))].
Proof.
  intros Hb Hp body failed retried.
  assert (failed =
            handleIngest_rejected detail (handleIngest p s)) as Ef.
  { unfold failed. cbn [run foldl react]. unfold ingest_disabled.
    rewrite JsFacts.falsy_trim_blank, Hb, Hp. cbn [orb].
    by rewrite handleIngest_accepted by done. }
  rewrite handleIngest_accepted in Ef by done.
  assert (text failed = text s /\ isProcessing failed = false)
    as [Et Ep] by (by rewrite Ef).
  assert (retried = handleIngest p failed) as Er.
  { unfold retried. cbn [react]. unfold ingest_disabled.
    by rewrite JsFacts.falsy_trim_blank, Et, Hb, Ep. }
  rewrite Er, handleIngest_accepted by (by rewrite Et).
  rewrite Et. rewrite Ef. simpl.
  repeat split; try done. by rewrite <- (assoc_L (++)).
Qed.

Lemma retry_resends_same_request_witness :
  length
    (sent (run (lit "default") [ClickIngest; Rejected None; ClickIngest]
             Scenario.typed_abc)) = 2.
Proof.
  destruct (retry_resends_same_request (lit "default") Scenario.typed_abc
              None) as (_ & _ & _ & H & _); [reflexivity | reflexivity |].
  change (run (lit "default") [ClickIngest; Rejected None; ClickIngest]
            Scenario.typed_abc)
    with (react (lit "default") ClickIngest
            (run (lit "default") [ClickIngest; Rejected None]
               Scenario.typed_abc)).
  by rewrite H.
Defined.

End IngestionExtras.

Module IngestionBanner.
Import Ingestion.

(** The failure banner.  After a failed ingestion the banner and the
    error toast carry the same message, which is the [detail] of the
    error response when there is a non-empty one and
    'Failed to ingest data' otherwise; it is never empty.  The text is
    kept and processing has ended. *)
Theorem failure_banner detail s :
  let s' := handleIngest_rejected detail s in
  let msg := or_else detail (lit "Failed to ingest data") in
  result s' = Some {| success := false; message := msg |} /\
  last (toasts s') = Some (ToastError msg) /\
  msg <> [] /\
  (forall m, detail = Some m -> m <> [] -> msg = m) /\
  (detail = None \/ detail = Some [] ->
   msg = lit "Failed to ingest data") /\
  text s' = text s /\ isProcessing s' = false /\ pending s' = false.
Proof.
  intros s' msg. split; [done|]. split; [apply last_snoc|].
  split.
  { unfold msg. destruct detail as [[|c m]|]; simpl; discriminate. }
  split.
  { intros m -> Hm. unfold msg. by destruct m. }
  split; [|done]. by intros [-> | ->].
Qed.

(** The success banner.  After a successful ingestion the banner shows
    the server's message when the response has a non-empty one, and
    otherwise 'Successfully processed N text chunks into embeddings' with
    N as in [reported_chunks], also when the response has no data at all;
    the banner is never empty, the success toast is shown, the text is
    emptied and processing has ended. *)
Theorem success_banner data s :
  let s' := handleIngest_fulfilled data s in
  let template :=
    lit "Successfully processed " ++ toString (reported_chunks data)
      ++ lit " text chunks into embeddings" in
  exists msg,
    result s' = Some {| success := true; message := msg |} /\
    msg <> [] /\
    last (toasts s') = Some (ToastSuccess (lit "Data ingested successfully!")) /\
    (forall d m, data = Some d -> d_message d = Some m -> m <> [] ->
       msg = m) /\
    (data ≫= d_message = None \/ data ≫= d_message = Some [] ->
     msg = template) /\
    text s' = [] /\ isProcessing s' = false /\ pending s' = false.
Proof.
  intros s' template. exists (or_else (data ≫= d_message) template).
  assert (nullish (data ≫= chunks_processed)
            (nullish (data ≫= chunksCreated) 0%Z) = reported_chunks data)
    as E.
  { destruct data as [[cp cc m]|]; [destruct cp, cc|]; reflexivity. }
  assert (template <> []) as Ht by discriminate.
  split; [unfold s', handleIngest_fulfilled; by rewrite E|]. clear E.
  split.
  { destruct (_ ≫= _) as [[|c m]|]; simpl; done. }
  split; [apply last_snoc|].
  split.
  { intros d m -> Hm Hne. simpl. rewrite Hm. by destruct m. }
  split; [|done].
  destruct data as [[cp cc [m|]]|]; simpl; intros [H | H]; try done.
  by injection H as ->.
Qed.

End IngestionBanner.

(** ** The word counter *)

Module WordCount.
Import Ingestion.

Lemma nonempty_pieces_cons w l :
  nonempty_pieces (w :: l) =
    (match w with [] => 0 | _ :: _ => 1 end) + nonempty_pieces l.
Proof.
  unfold nonempty_pieces. rewrite filter_cons.
  destruct (decide (0 < length w)) as [H|H]; destruct w; simpl in *;
    try lia; done.
Qed.

Lemma reverse_is_nil {A} (l : list A) :
  match reverse l with [] => 0 | _ :: _ => 1 end =
  match l with [] => 0 | _ :: _ => 1 end.
Proof.
  destruct l as [|a l]; [done|]. rewrite reverse_cons.
  by destruct (reverse l).
Qed.

(** The pieces that are not empty are the maximal runs. *)
Lemma split_counts_runs s : forall cur in_sep,
  (in_sep = true -> cur = []) ->
  nonempty_pieces (split_ws_from cur in_sep s) =
    runs (match cur with [] => true | _ :: _ => false end) s
      + match cur with [] => 0 | _ :: _ => 1 end.
Proof.
  induction s as [|c s IH]; intros cur in_sep Hsep.
  - simpl. rewrite nonempty_pieces_cons, reverse_is_nil.
    unfold nonempty_pieces. simpl. lia.
  - cbn [split_ws_from runs]. destruct (is_ws c) eqn:Hc.
    + destruct in_sep.
      * rewrite (Hsep eq_refl). by rewrite IH.
      * rewrite nonempty_pieces_cons, reverse_is_nil, IH by done.
        destruct cur; simpl; lia.
    + rewrite IH by done. destruct cur; simpl; lia.
Qed.

Lemma runs_blank b t : blank t = true -> runs b t = 0.
Proof.
  revert b. induction t as [|c t IH]; intros b H; [done|].
  simpl in *. destruct (is_ws c); [by apply IH|done].
Qed.

Lemma runs_blank_prefix pre x :
  blank pre = true -> runs true (pre ++ x) = runs true x.
Proof.
  induction pre as [|c pre IH]; intros H; [done|].
  simpl in *. destruct (is_ws c); [by apply IH|done].
Qed.

Lemma runs_blank_suffix x post : forall b,
  blank post = true -> runs b (x ++ post) = runs b x.
Proof.
  induction x as [|c x IH]; intros b H; [by apply runs_blank|].
  simpl. destruct (is_ws c); by rewrite IH.
Qed.

Lemma runs_trim t : runs true (trim t) = runs true t.
Proof.
  destruct (TrimFacts.trim_split t) as (pre & post & E & Hpre & Hpost).
  rewrite E at 2. rewrite runs_blank_prefix by done.
  by rewrite runs_blank_suffix.
Qed.

Lemma getWordCount_runs s : getWordCount s = runs true (text s).
Proof.
  unfold getWordCount. fold (nonempty_pieces (split_ws (trim (text s)))).
  unfold split_ws. rewrite split_counts_runs by done.
  rewrite runs_trim. lia.
Qed.

Lemma runs_zero_blank t : runs true t = 0 <-> blank t = true.
Proof.
  induction t as [|c t IH]; [done|]. simpl.
  destruct (is_ws c); [done|]. split; [lia|discriminate].
Qed.

Lemma runs_bound t : forall b,
  2 * runs b t <= length t + (if b then 1 else 0).
Proof.
  induction t as [|c t IH]; intros b; [simpl; lia|].
  simpl. destruct (is_ws c).
  - specialize (IH true). simpl in IH. destruct b; lia.
  - specialize (IH false). simpl in IH. destruct b; lia.
Qed.

Lemma runs_join u w v : forall b,
  is_ws w = true -> runs b (u ++ w :: v) = runs b u + runs true v.
Proof.
  induction u as [|c u IH]; intros b Hw.
  - simpl. by rewrite Hw.
  - simpl. destruct (is_ws c); rewrite IH by done; lia.
Qed.

(** The word counter shows 0 exactly when the text is empty or white
    space only, that is exactly when the Ingest Data button is disabled
    for want of text: the button is disabled iff the view is processing
    or the counter shows 0. *)
Theorem word_count_zero_iff_blank s :
  (getWordCount s = 0 <-> blank (text s) = true) /\
  ingest_disabled s = isProcessing s || bool_decide (getWordCount s = 0).
Proof.
  rewrite getWordCount_runs. split; [apply runs_zero_blank|].
  unfold ingest_disabled. rewrite JsFacts.falsy_trim_blank. f_equal.
  destruct (blank (text s)) eqn:Hb.
  - symmetry. by apply bool_decide_eq_true_2, runs_zero_blank.
  - symmetry. apply bool_decide_eq_false_2. intros H.
    apply runs_zero_blank in H. congruence.
Qed.

(** The word counter counts the maximal runs of characters that are not
    white space: white space at the ends does not count, two words need
    at least three characters (twice the count is at most the character
    count plus one), and the count of two texts joined by a white-space
    character is the sum of their counts. *)
Theorem word_count_counts_runs s u w v :
  is_ws w = true ->
  getWordCount (setText (trim (text s)) s) = getWordCount s /\
  2 * getWordCount s <= getCharacterCount s + 1 /\
  getWordCount (setText (u ++ w :: v) s) =
    getWordCount (setText u s) + getWordCount (setText v s).
Proof.
  intros Hw. rewrite !getWordCount_runs. cbn [text setText].
  split; [apply runs_trim|].
  split; [apply (runs_bound (text s) true)|]. by apply runs_join.
Qed.

Lemma word_count_counts_runs_witness :
  getWordCount (setText (lit "Doug likes blue.") init) =
    getWordCount (setText (lit "Doug") init)
      + getWordCount (setText (lit "likes blue.") init).
Proof.
  destruct (word_count_counts_runs init (lit "Doug") 32%N
              (lit "likes blue.")) as (_ & _ & H); [reflexivity|].
  exact H.
Defined.

End WordCount.

(** ** The API layer, further *)

Module ApiExtras.

(** The two ingestion functions build the same body when a persona is
    passed and no metadata; both pass the text on as it is.  Without a
    persona, [ingestionAPI.ingestText] sends "default" while
    [api.ingestData] sends no persona_id, so the two bodies differ. *)
Theorem ingest_functions_agree_on_given_persona {M} (t p : JsString)
    (meta : option M) :
  Api.ingestData t (Some p) = Api.ingestText t (Some p) (None : option M) /\
  Api.text (Api.ingestData (M := M) t (Some p)) = t /\
  Api.text (Api.ingestText t None meta) = t /\
  Api.metadata (Api.ingestText t (Some p) meta) = meta /\
  Api.ingest_persona_id (Api.ingestText t None meta) = Some (lit "default") /\
  Api.ingest_persona_id (Api.ingestData (M := M) t None) = None /\
  Api.ingestData (M := M) t None <> Api.ingestText t None None.
Proof. repeat split; try done. Qed.

(** The URL of a persona deletion is '/api/personas/' followed by the id
    exactly as given, with no escaping: the id is what follows the first
    14 characters, so two ids give the same call only when they are
    equal.  The call never goes to the collection URL, and
    [api.deletePersona] and [personaAPI.deletePersona], like
    [api.getPersonas] and [personaAPI.listPersonas], make the same call. *)
Theorem delete_url_holds_the_id (personaId other : JsString) :
  Api.url (Api.deletePersona personaId) = lit "/api/personas/" ++ personaId /\
  drop 14 (Api.url (Api.deletePersona personaId)) = personaId /\
  length (Api.url (Api.deletePersona personaId)) = 14 + length personaId /\
  (Api.deletePersona personaId = Api.deletePersona other ->
   personaId = other) /\
  Api.url (Api.deletePersona personaId) <> Api.url Api.getPersonas /\
  Api.deletePersona personaId = Api.legacy_deletePersona personaId /\
  Api.getPersonas = Api.listPersonas.
Proof.
  split; [done|]. split; [done|]. split; [done|].
  split.
  { intros H. apply (f_equal Api.url) in H.
    cbn [Api.url Api.deletePersona] in H. by apply app_inv_head in H. }
  split; [|done].
  intros H. apply (f_equal length) in H. simpl in H. lia.
Qed.

End ApiExtras.

(** ** The accordion of the sidebar *)

Module SidebarExtras.
Import Sidebar.

Lemma clicks_S n o : clicks (S n) o = toggle (clicks n o).
Proof. done. Qed.

(** An accordion item starts closed unless [defaultOpen] is given as
    true; after [n] clicks on its header it is open exactly when [n] is
    odd xor it started open, so two clicks restore it.  The body and the
    [headerRight] node are never rendered together, and when a
    [headerRight] node is given exactly one of the two is rendered. *)
Theorem accordion_toggles (p : Props) (n : nat) :
  let o := clicks n (init p) in
  (defaultOpen p = None -> init p = false) /\
  o = xorb (init p) (Nat.odd n) /\
  clicks 2 o = o /\
  headerRight_rendered p o && children_rendered o = false /\
  (headerRight p = true ->
   xorb (headerRight_rendered p o) (children_rendered o) = true).
Proof.
  intros o. split; [by intros H; unfold init; rewrite H|].
  assert (o = xorb (init p) (Nat.odd n)) as E.
  { unfold o. induction n as [|n IH].
    - simpl. by destruct (init p).
    - rewrite clicks_S, IH, Nat.odd_succ, <- Nat.negb_odd.
      unfold toggle. by destruct (init p), (Nat.odd n). }
  split; [exact E|]. unfold headerRight_rendered, children_rendered.
  split; [simpl; unfold toggle; by destruct o|].
  split; [by destruct (headerRight p), o|].
  intros ->. by destruct o.
Qed.

End SidebarExtras.

(** ** The reveal of a turn among other events *)

Module RevealTurn.
Import Chat Typewriter ChatFacts ChatRuns.










End RevealTurn.

Module RevealAmended.
Import Chat Typewriter ChatFacts ChatRuns RevealTurn.




End RevealAmended.
